(** * The copy planner and the mirror delta engine of mc

    A shallow embedding of [cp-url.go] (the URL shape classifier
    [guessCopyURLType] and the plan generators [prepareCopyURLsTypeA] ..
    [prepareCopyURLsTypeC]) and of the mirror file (the [isEmpty] method of
    [mirrorURLs], the availability oracle [getIsAvailable] and the delta
    engine [deltaSourceTargets]).

    Channels are modelled by the finite list of values sent on them before
    they are closed; a goroutine that ranges over a channel is a recursive
    function over that list.  A nil pointer is [None]; dereferencing it is
    the outcome [Panicked].  The collaborators whose code is not part of the
    planner (the storage clients, the URL parser, the path join) are the
    fields of a type class, so every theorem holds for every backend. *)

From Stdlib Require Import String Ascii List ZArith Bool Lia.
Import ListNotations.
Local Open Scope string_scope.
Local Open Scope list_scope.
Local Open Scope Z_scope.

(** ** Go strings: the functions of package [strings] the planner calls *)

Module GoStrings.

(** [strings.HasPrefix]. *)
Definition HasPrefix (s pre : string) : bool := String.prefix pre s.

(** [strings.TrimPrefix]: [s[len(pre):]] when [s] starts with [pre],
    else [s] itself. *)
Definition TrimPrefix (s pre : string) : string :=
  if HasPrefix s pre
  then String.substring (String.length pre)
         (String.length s - String.length pre) s
  else s.

(** Strings reversed, to read suffixes as prefixes. *)
Fixpoint rev_string (s acc : string) : string :=
  match s with
  | EmptyString => acc
  | String c s' => rev_string s' (String c acc)
  end.

(** [strings.HasSuffix]. *)
Definition HasSuffix (s suf : string) : bool :=
  String.prefix (rev_string suf "") (rev_string s "").

(** The bytes [strings.TrimSpace] removes on its ASCII path:
    tab, newline, vertical tab, form feed, carriage return and space. *)
Definition isSpace (c : ascii) : bool :=
  let n := nat_of_ascii c in
  ((9 <=? n) && (n <=? 13))%nat || (n =? 32)%nat.

Fixpoint trimLeft (s : string) : string :=
  match s with
  | EmptyString => EmptyString
  | String c s' => if isSpace c then trimLeft s' else s
  end.

(** [strings.TrimSpace] on byte strings. *)
Definition TrimSpace (s : string) : string :=
  rev_string (trimLeft (rev_string (trimLeft s) "")) "".

(** [strings.LastIndex s sep], counted from offset [i]: the index of the
    last occurrence of [sep], or -1. *)
Fixpoint LastIndex_from (i : Z) (s sep : string) : Z :=
  match s with
  | EmptyString => if String.eqb sep "" then i else -1
  | String _ s' =>
      let r := LastIndex_from (i + 1) s' sep in
      if 0 <=? r then r else if String.prefix sep s then i else -1
  end.

Definition LastIndex (s sep : string) : Z := LastIndex_from 0 s sep.

(** The slice expression [s[:n]]. *)
Definition slice_to (s : string) (n : Z) : string :=
  String.substring 0 (Z.to_nat n) s.

(** [string(r)] for a one-byte rune. *)
Definition string_of_rune (r : ascii) : string := String r EmptyString.

End GoStrings.

(** ** [filepath.Base] on a slash-separated path *)

Module FilePath.

Definition isPathSeparator (c : ascii) : bool := Ascii.eqb c "/"%char.

(** Drops the separators at the head of a (reversed) path. *)
Fixpoint dropSeparators (s : string) : string :=
  match s with
  | EmptyString => EmptyString
  | String c s' => if isPathSeparator c then dropSeparators s' else s
  end.

(** Keeps the bytes up to the first separator of a (reversed) path. *)
Fixpoint untilSeparator (s : string) : string :=
  match s with
  | EmptyString => EmptyString
  | String c s' => if isPathSeparator c then EmptyString
                   else String c (untilSeparator s')
  end.

(** [filepath.Base]: "." for the empty path; trailing separators are
    stripped, the last element is kept; a path of separators only is "/". *)
Definition Base (path : string) : string :=
  match path with
  | EmptyString => "."
  | _ =>
      let stripped := dropSeparators (GoStrings.rev_string path "") in
      match GoStrings.rev_string (untilSeparator stripped) "" with
      | EmptyString => "/"
      | elem => elem
      end
  end.

End FilePath.

(** ** [os.FileMode]: a 32-bit mask, the type bits in the high positions *)

Module FileMode.

Definition ModeDir : Z := Z.shiftl 1 31.
Definition ModeSymlink : Z := Z.shiftl 1 27.
Definition ModeDevice : Z := Z.shiftl 1 26.
Definition ModeNamedPipe : Z := Z.shiftl 1 25.
Definition ModeSocket : Z := Z.shiftl 1 24.

(** The mask of the type bits, as [os] defined it when the planner was
    written. *)
Definition ModeType : Z :=
  Z.lor ModeDir (Z.lor ModeSymlink (Z.lor ModeNamedPipe
    (Z.lor ModeSocket ModeDevice))).

(** [m.IsDir()]: [m&ModeDir != 0]. *)
Definition IsDir (m : Z) : bool := negb (Z.land m ModeDir =? 0).

(** [m.IsRegular()]: [m&ModeType == 0]. *)
Definition IsRegular (m : Z) : bool := Z.land m ModeType =? 0.

End FileMode.

(** ** Package [client]: URLs, content descriptors, listing events *)

Module Client.

Record URL := mkURL {
  Scheme : string;
  Host : string;
  Path : string;
  Separator : ascii
}.

Definition withPath (u : URL) (p : string) : URL :=
  mkURL (Scheme u) (Host u) p (Separator u).

(** The errors of the planner ([print-structs.go] and the mirror file) and
    the errors a backend reports.  Wrapping an error with a trace
    ([Trace], [iodine.New]) keeps the error. *)
Inductive error :=
| errInvalidArgument
| errInvalidSource (url : string)
| errInvalidTarget (url : string)
| errSourceNotRecursive (url : string)
| errSourceIsNotDir (url : string)
| errSourceListEmpty
| errOverWriteNotAllowed (url : string)
| errBackend (msg : string).

(** [client.Content]. *)
Record Content := mkContent {
  Name : string;
  ContentURL : URL;
  Type_ : Z;
  Size : Z
}.

Definition withName (c : Content) (n : string) : Content :=
  mkContent n (ContentURL c) (Type_ c) (Size c).

Definition emptyURL : URL := mkURL "" "" "" "000"%char.

(** [client.ContentOnChannel]: two pointers, either may be nil. *)
Record ContentOnChannel := mkEvent {
  EvContent : option Content;
  EvErr : option error
}.

(** The zero value, also what a receive on a closed channel yields. *)
Definition zeroEvent : ContentOnChannel := mkEvent None None.

(** A Go slice of strings: nil, or backed by an array (possibly of
    length zero). *)
Inductive slice :=
| NilSlice
| Slice (elems : list string).

Definition elements (s : slice) : list string :=
  match s with NilSlice => [] | Slice l => l end.

Definition len (s : slice) : Z := Z.of_nat (List.length (elements s)).

Definition isNil (s : slice) : bool :=
  match s with NilSlice => true | Slice _ => false end.

(** A call either returns a value or an error. *)
Inductive result (A : Type) :=
| Ok (a : A)
| Failed (e : error).
Arguments Ok {A} a.
Arguments Failed {A} e.

(** How a goroutine that writes to a channel ends. *)
Inductive status := Closed | Panicked.

End Client.

(** ** [cp-url.go]: the shape classifier and the copy plan generators *)

Module Cp.
Import GoStrings Client.

(** The client [url2Stat] hands back; [List recursive] is the sequence of
    events its listing channel delivers. *)
Record ClientHandle := mkClient {
  List : bool -> list ContentOnChannel
}.

(** The helpers of the repository and of the standard library that
    [cp-url.go] calls and whose code lies outside it. *)
Class Backend := {
  isURLRecursive : string -> bool;
  stripRecursiveURL : string -> string;
  isTargetURLDir : string -> bool;
  url2Stat : string -> result (ClientHandle * Content);
  Parse : string -> result URL;
  URLString : URL -> string;
  filepathJoin : string -> string -> string
}.

Record copyURLs := mkCopyURLs {
  SourceContent : option Content;
  TargetContent : option Content;
  Error : option error
}.

Inductive copyURLsType :=
| copyURLsTypeInvalid
| copyURLsTypeA
| copyURLsTypeB
| copyURLsTypeC
| copyURLsTypeD.

(** [copyURLs{Error: e}]. *)
Definition errorURLs (e : error) : copyURLs := mkCopyURLs None None (Some e).

(** [&client.Content{Name: n}]. *)
Definition namedContent (n : string) : Content := mkContent n emptyURL 0 0.

(** Runs [k] after a goroutine stage that ended with [Closed]; a panic
    ends the plan. *)
Definition andThen {A : Type} (first : list A * status)
  (k : list A * status) : list A * status :=
  match first with
  | (out, Panicked) => (out, Panicked)
  | (out, Closed) => (out ++ fst k, snd k)
  end.

Section Planner.
Context {B : Backend}.

Definition guessCopyURLType (sourceURLs : slice) (targetURL : string)
  : copyURLsType :=
  if String.eqb (TrimSpace targetURL) "" || String.eqb targetURL "" then
    copyURLsTypeInvalid
  else if isNil sourceURLs then
    copyURLsTypeInvalid
  else if len sourceURLs =? 1 then
    if isURLRecursive (nth 0 (elements sourceURLs) "") then copyURLsTypeC
    else if isTargetURLDir targetURL then copyURLsTypeB
    else copyURLsTypeA
  else copyURLsTypeD.

Definition prepareCopyURLsTypeA (sourceURL targetURL : string)
  : list copyURLs :=
  match url2Stat sourceURL with
  | Failed err => [errorURLs err]
  | Ok (_, sourceContent) =>
      if negb (FileMode.IsRegular (Type_ sourceContent)) then
        [errorURLs (errInvalidSource sourceURL)]
      else
        [mkCopyURLs (Some (withName sourceContent sourceURL))
                    (Some (namedContent targetURL)) None]
  end.

Definition prepareCopyURLsTypeB (sourceURL targetURL : string)
  : list copyURLs :=
  match url2Stat sourceURL with
  | Failed err => [errorURLs err]
  | Ok (_, sourceContent) =>
      if negb (FileMode.IsRegular (Type_ sourceContent)) then
        [errorURLs (errInvalidSource sourceURL)]
      else
        match Parse sourceURL with
        | Failed _ => [errorURLs (errInvalidSource sourceURL)]
        | Ok sourceURLParse =>
            match Parse targetURL with
            | Failed _ => [errorURLs (errInvalidTarget targetURL)]
            | Ok targetURLParse =>
                let targetURLParse' :=
                  withPath targetURLParse
                    (filepathJoin (Path targetURLParse)
                       (FilePath.Base (Path sourceURLParse))) in
                prepareCopyURLsTypeA sourceURL (URLString targetURLParse')
            end
        end
  end.

(** The body of the loop of [prepareCopyURLsTypeC] for one listing event. *)
Definition typeC_entry (sourceURL targetURL : string)
  (sourceContent : ContentOnChannel) : list copyURLs * status :=
  match EvErr sourceContent with
  | Some err => ([errorURLs err], Closed)
  | None =>
      match EvContent sourceContent with
      | None => ([], Panicked)
      | Some c =>
          if negb (FileMode.IsRegular (Type_ c)) then ([], Closed)
          else
            match Parse sourceURL with
            | Failed _ => ([errorURLs (errInvalidSource sourceURL)], Closed)
            | Ok sourceURLParse =>
                match Parse targetURL with
                | Failed _ =>
                    ([errorURLs (errInvalidTarget targetURL)], Closed)
                | Ok targetURLParse =>
                    let s := URLString sourceURLParse in
                    let sourceURLDelimited :=
                      slice_to s
                        (LastIndex s
                           (string_of_rune (Separator sourceURLParse)) + 1) in
                    let sourceContentName := Name c in
                    let sourceContentURL :=
                      (sourceURLDelimited ++ sourceContentName)%string in
                    match Parse sourceContentURL with
                    | Failed _ =>
                        ([errorURLs (errInvalidSource sourceContentName)],
                         Closed)
                    | Ok sourceContentParse =>
                        let newTargetURLParse :=
                          withPath targetURLParse
                            (filepathJoin (Path targetURLParse)
                               sourceContentName) in
                        (prepareCopyURLsTypeA (URLString sourceContentParse)
                           (URLString newTargetURLParse), Closed)
                    end
                end
            end
      end
  end.

(** [for sourceContent := range sourceClient.List(true)]. *)
Fixpoint typeC_loop (sourceURL targetURL : string)
  (events : list ContentOnChannel) : list copyURLs * status :=
  match events with
  | [] => ([], Closed)
  | ev :: rest =>
      andThen (typeC_entry sourceURL targetURL ev)
              (typeC_loop sourceURL targetURL rest)
  end.

Definition prepareCopyURLsTypeC (sourceURL targetURL : string)
  : list copyURLs * status :=
  if negb (isURLRecursive sourceURL) then
    ([errorURLs (errSourceNotRecursive sourceURL)], Closed)
  else
    let sourceURL := stripRecursiveURL sourceURL in
    match url2Stat sourceURL with
    | Failed err => ([errorURLs err], Closed)
    | Ok (sourceClient, sourceContent) =>
        if negb (FileMode.IsDir (Type_ sourceContent)) then
          ([errorURLs (errSourceIsNotDir sourceURL)], Closed)
        else typeC_loop sourceURL targetURL (List sourceClient true)
    end.

(** [for _, sourceURL := range sourceURLs] of [prepareCopyURLsTypeD]. *)
Fixpoint typeD_loop (sourceURLs : list string) (targetURL : string)
  : list copyURLs * status :=
  match sourceURLs with
  | [] => ([], Closed)
  | sourceURL :: rest =>
      andThen
        (if isURLRecursive sourceURL
         then prepareCopyURLsTypeC sourceURL targetURL
         else (prepareCopyURLsTypeB sourceURL targetURL, Closed))
        (typeD_loop rest targetURL)
  end.

Definition prepareCopyURLsTypeD (sourceURLs : slice) (targetURL : string)
  : list copyURLs * status :=
  if isNil sourceURLs then ([errorURLs errSourceListEmpty], Closed)
  else typeD_loop (elements sourceURLs) targetURL.

Definition prepareCopyURLs (sourceURLs : slice) (targetURL : string)
  : list copyURLs * status :=
  match guessCopyURLType sourceURLs targetURL with
  | copyURLsTypeA =>
      (prepareCopyURLsTypeA (nth 0 (elements sourceURLs) "") targetURL,
       Closed)
  | copyURLsTypeB =>
      (prepareCopyURLsTypeB (nth 0 (elements sourceURLs) "") targetURL,
       Closed)
  | copyURLsTypeC =>
      prepareCopyURLsTypeC (nth 0 (elements sourceURLs) "") targetURL
  | copyURLsTypeD => prepareCopyURLsTypeD sourceURLs targetURL
  | copyURLsTypeInvalid => ([errorURLs errInvalidArgument], Closed)
  end.

End Planner.

End Cp.

(** ** The mirror file: [isEmpty], the availability oracle, the delta engine *)

Module Mirror.
Import GoStrings Client.

(** What a function that may dereference a nil pointer does. *)
Inductive outcome (A : Type) :=
| Returns (a : A)
| Panics.
Arguments Returns {A} a.
Arguments Panics {A}.

(** The client of a URL; [List recursive incomplete] is the sequence of
    events its listing channel delivers. *)
Record ClientHandle := mkClient {
  List : bool -> bool -> list ContentOnChannel
}.

(** The helpers of the repository that the mirror file calls and whose code
    lies outside it. *)
Class Backend := {
  url2Client : string -> result ClientHandle;
  urlJoinPath : string -> string -> string;
  NewURL : string -> URL;
  URLString : URL -> string
}.

Record mirrorURLs := mkMirrorURLs {
  SourceContent : option Content;
  TargetContents : list Content;
  Error : option error
}.

Definition isNone {A : Type} (o : option A) : bool :=
  match o with None => true | Some _ => false end.

(** [func (m mirrorURLs) isEmpty() bool].  The second condition reads
    [m.SourceContent.Size] before anything else. *)
Definition isEmpty (m : mirrorURLs) : outcome bool :=
  if isNone (SourceContent m)
     && (Z.of_nat (List.length (TargetContents m)) =? 0)
     && isNone (Error m)
  then Returns true
  else
    match SourceContent m with
    | None => Panics
    | Some src =>
        if (Size src =? 0)
           && (Z.of_nat (List.length (TargetContents m)) =? 0)
           && isNone (Error m)
        then Returns true
        else Returns false
    end.

(** The variables the closure [isAvailable] captures. *)
Record oracle := mkOracle {
  url : string;
  ch : list ContentOnChannel;
  current : string;
  reachedEOF : bool;
  ok : bool;
  content : ContentOnChannel
}.

(** [mirrorURLs{Error: e}]. *)
Definition errorURLs (e : error) : mirrorURLs := mkMirrorURLs None [] (Some e).

(** [client.Content{URL: *client.NewURL(targetPath)}]. *)
Definition targetContentOf (u : URL) : Content := mkContent "" u 0 0.

Section Engine.
Context {B : Backend}.

(** The [for] loop of [isAvailable]; every turn that does not return
    receives one event from [ch]. *)
Fixpoint isAvailable_loop (mirrorIsForce : bool) (url expected : string)
  (srcType srcSize : Z) (ch : list ContentOnChannel) (current : string)
  (ok : bool) (content : ContentOnChannel) {struct ch}
  : outcome (bool * option error) * oracle :=
  let st := mkOracle url ch current false ok content in
  if (expected <? current)%string then (Returns (false, None), st)
  else if (expected =? current)%string then
    match EvContent content with
    | None => (Panics, st)
    | Some tgt =>
        let tgtType := Type_ tgt in
        let tgtSize := Size tgt in
        if FileMode.IsRegular srcType && negb (FileMode.IsRegular tgtType)
        then (Returns (false, Some (errInvalidTarget current)), st)
        else if (FileMode.IsRegular srcType && FileMode.IsRegular tgtType)
                && negb (srcSize =? tgtSize)
        then
          if negb mirrorIsForce
          then (Returns (false, Some (errOverWriteNotAllowed current)), st)
          else (Returns (false, None), st)
        else (Returns (true, None), st)
    end
  else
    match ch with
    | [] => (Returns (false, None), mkOracle url [] current true false zeroEvent)
    | ev :: rest =>
        match EvErr ev with
        | Some err =>
            (Returns (false, Some err), mkOracle url rest current false true ev)
        | None =>
            match EvContent ev with
            | None => (Panics, mkOracle url rest current false true ev)
            | Some c =>
                isAvailable_loop mirrorIsForce url expected srcType srcSize
                  rest (URLString (ContentURL c)) true ev
            end
        end
    end.

(** One call of the closure, on the captured variables [o]. *)
Definition isAvailable (mirrorIsForce : bool) (o : oracle)
  (suffix : string) (srcType srcSize : Z)
  : outcome (bool * option error) * oracle :=
  if reachedEOF o then (Returns (false, None), o)
  else
    let expected := urlJoinPath (url o) suffix in
    isAvailable_loop mirrorIsForce (url o) expected srcType srcSize
      (ch o) (current o) (ok o) (content o).

Definition getIsAvailable (url : string) : result oracle :=
  match url2Client url with
  | Failed err => Failed err
  | Ok clnt => Ok (mkOracle url (List clnt true false) url false false zeroEvent)
  end.

(** A sequence of calls of one closure, in order. *)
Fixpoint askAll (mirrorIsForce : bool) (o : oracle)
  (queries : list (string * Z * Z)) : list (outcome (bool * option error)) :=
  match queries with
  | [] => []
  | (suffix, srcType, srcSize) :: rest =>
      let (r, o') := isAvailable mirrorIsForce o suffix srcType srcSize in
      r :: askAll mirrorIsForce o' rest
  end.

(** [string(client.NewURL(u).Separator)]. *)
Definition separatorOf (u : string) : string :=
  string_of_rune (Separator (NewURL u)).

(** The trailing separator the engine adds to a root that lacks it. *)
Definition withSeparator (u : string) : string :=
  if negb (HasSuffix u (separatorOf u)) then (u ++ separatorOf u)%string else u.

(** [sourceBaseDir] after the first [if] of [deltaSourceTargets]. *)
Definition sourceBaseDirOf (sourceURL : string) : string :=
  if negb (HasSuffix sourceURL (separatorOf sourceURL))
  then FilePath.Base sourceURL else "".

(** The suffix of a source entry: lines 204 to 207. *)
Definition suffixOf (sourceURL sourceBaseDir : string) (c : Content) : string :=
  let suffix := TrimPrefix (URLString (ContentURL c)) sourceURL in
  if negb (String.eqb sourceBaseDir "")
  then urlJoinPath sourceBaseDir suffix else suffix.

(** [for i := range targetURLs { targetAvailable[i], err = getIsAvailable(..) }] *)
Fixpoint openTargets (targetURLs : list string) : result (list oracle) :=
  match targetURLs with
  | [] => Ok []
  | u :: rest =>
      match getIsAvailable u with
      | Failed err => Failed err
      | Ok o =>
          match openTargets rest with
          | Failed err => Failed err
          | Ok os => Ok (o :: os)
          end
      end
  end.

(** [for i, isAvailable := range targetAvailable]: the closures and
    [targetURLs] are walked in step; [targetContents] grows by append. *)
Fixpoint targetsLoop (mirrorIsForce : bool) (suffix : string) (src : Content)
  (targetAvailable : list oracle) (targetURLs : list string)
  (targetContents : list Content)
  : list mirrorURLs * outcome (list oracle * list Content) :=
  match targetAvailable with
  | [] => ([], Returns ([], targetContents))
  | o :: os =>
      let (r, o') := isAvailable mirrorIsForce o suffix (Type_ src) (Size src) in
      match r with
      | Panics => ([], Panics)
      | Returns (_, Some err) =>
          let (out, res) :=
            targetsLoop mirrorIsForce suffix src os (tl targetURLs)
              targetContents in
          (errorURLs err :: out,
           match res with
           | Panics => Panics
           | Returns (os', tcs) => Returns (o' :: os', tcs)
           end)
      | Returns (available, None) =>
          let targetContents' :=
            if negb available then
              let targetPath := urlJoinPath (hd "" targetURLs) suffix in
              targetContents ++ [targetContentOf (NewURL targetPath)]
            else targetContents in
          let (out, res) :=
            targetsLoop mirrorIsForce suffix src os (tl targetURLs)
              targetContents' in
          (out,
           match res with
           | Panics => Panics
           | Returns (os', tcs) => Returns (o' :: os', tcs)
           end)
      end
  end.

(** [for sourceContent := range sourceClient.List(true, false)]. *)
Fixpoint sourceLoop (mirrorIsForce : bool) (sourceURL sourceBaseDir : string)
  (targetURLs : list string) (events : list ContentOnChannel)
  (targetAvailable : list oracle) : list mirrorURLs * status :=
  match events with
  | [] => ([], Closed)
  | sourceContent :: rest =>
      match EvErr sourceContent with
      | Some err =>
          let (out, st) :=
            sourceLoop mirrorIsForce sourceURL sourceBaseDir targetURLs rest
              targetAvailable in
          (errorURLs err :: out, st)
      | None =>
          match EvContent sourceContent with
          | None => ([], Panicked)
          | Some c =>
              if FileMode.IsDir (Type_ c) then
                sourceLoop mirrorIsForce sourceURL sourceBaseDir targetURLs
                  rest targetAvailable
              else
                let suffix := suffixOf sourceURL sourceBaseDir c in
                match targetsLoop mirrorIsForce suffix c targetAvailable
                        targetURLs [] with
                | (out, Panics) => (out, Panicked)
                | (out, Returns (targetAvailable', targetContents)) =>
                    let emitted :=
                      if 0 <? Z.of_nat (List.length targetContents)
                      then [mkMirrorURLs (Some c) targetContents None]
                      else [] in
                    let (out', st) :=
                      sourceLoop mirrorIsForce sourceURL sourceBaseDir
                        targetURLs rest targetAvailable' in
                    (out ++ emitted ++ out', st)
                end
          end
      end
  end.

Definition deltaSourceTargets (mirrorIsForce : bool) (sourceURL : string)
  (targetURLs : list string) : list mirrorURLs * status :=
  let sourceBaseDir := sourceBaseDirOf sourceURL in
  let sourceURL := withSeparator sourceURL in
  let targetURLs := map withSeparator targetURLs in
  match openTargets targetURLs with
  | Failed err => ([errorURLs err], Closed)
  | Ok targetAvailable =>
      match url2Client sourceURL with
      | Failed err => ([errorURLs err], Closed)
      | Ok sourceClient =>
          sourceLoop mirrorIsForce sourceURL sourceBaseDir targetURLs
            (List sourceClient true false) targetAvailable
      end
  end.

End Engine.

End Mirror.

(** ** Sample backends, used to run the planner on concrete arguments *)

Module Sample.
Import GoStrings Client.

Definition regularFile (path : string) (size : Z) : Content :=
  mkContent path (mkURL "" "" path "/"%char) 0 size.

Definition directory (path : string) : Content :=
  mkContent path (mkURL "" "" path "/"%char) FileMode.ModeDir 0.

Definition symlink (path : string) (size : Z) : Content :=
  mkContent path (mkURL "" "" path "/"%char) FileMode.ModeSymlink size.

Definition entry (c : Content) : ContentOnChannel := mkEvent (Some c) None.

Definition failure (msg : string) : ContentOnChannel :=
  mkEvent None (Some (errBackend msg)).

(** Modelled from the spec: [urlJoinPath] and [filepath.Join], whose code
    is not part of the planner files ("join two path segments respecting
    the backend's separator"): one slash between the two segments. *)
Definition joinSlash (a b : string) : string :=
  if HasSuffix a "/" then (a ++ TrimPrefix b "/")%string
  else (a ++ "/" ++ TrimPrefix b "/")%string.

(** A file system with the directory [dir] holding [a.txt] (5 bytes) and
    [sub/b.txt] (3 bytes), the file [f1] and the directory [out]. *)
Definition dirListing : list ContentOnChannel :=
  [ entry (regularFile "dir/a.txt" 5);
    failure "permission denied";
    entry (directory "dir/sub");
    entry (regularFile "dir/sub/b.txt" 3) ].

Definition statOf (u : string) : result (Cp.ClientHandle * Content) :=
  if String.eqb u "f1" then
    Ok (Cp.mkClient (fun _ => []), regularFile "f1" 7)
  else if String.eqb u "dir" then
    Ok (Cp.mkClient (fun _ => dirListing), directory "dir")
  else if String.eqb u "dir/a.txt" then
    Ok (Cp.mkClient (fun _ => []), regularFile "dir/a.txt" 5)
  else if String.eqb u "dir/sub/b.txt" then
    Ok (Cp.mkClient (fun _ => []), regularFile "dir/sub/b.txt" 3)
  else if String.eqb u "out" then
    Ok (Cp.mkClient (fun _ => []), directory "out")
  else Failed (errBackend "no such file").

(** Modelled from the spec: the recursive marker is the trailing
    ellipsis ("dir/..."), stripping removes it; [client.Parse] keeps the
    string as the path of a URL with the slash separator. *)
#[local] Instance cpBackend : Cp.Backend := {|
  Cp.isURLRecursive := fun u => HasSuffix u "...";
  Cp.stripRecursiveURL := fun u =>
    if HasSuffix u "..."
    then String.substring 0 (String.length u - 3) u else u;
  Cp.isTargetURLDir := fun u => String.eqb u "out" || String.eqb u "out/";
  Cp.url2Stat := statOf;
  Cp.Parse := fun u => Ok (mkURL "" "" u "/"%char);
  Cp.URLString := Path;
  Cp.filepathJoin := joinSlash
|}.

End Sample.

(** ** Facts about the classifier and the copy plan generators *)

Module CpFacts.
Import GoStrings Client Cp.

Lemma IsDir_not_regular (m : Z) :
  FileMode.IsDir m = true -> FileMode.IsRegular m = false.
Proof.
  unfold FileMode.IsDir, FileMode.IsRegular. intros H.
  apply negb_true_iff in H. apply Z.eqb_neq in H. apply Z.eqb_neq.
  intros E. apply H. apply Z.bits_inj'. intros n Hn.
  rewrite Z.land_spec, Z.bits_0.
  assert (T : Z.testbit (Z.land m FileMode.ModeType) n = false)
    by (rewrite E; apply Z.bits_0).
  rewrite Z.land_spec in T.
  destruct (Z.testbit m n) eqn:Em; [|reflexivity]. simpl in *.
  destruct (Z.testbit FileMode.ModeDir n) eqn:Ed; [|reflexivity].
  unfold FileMode.ModeType in T. rewrite Z.lor_spec, Ed in T. discriminate.
Qed.

Section WithBackend.
Context {B : Backend}.

(** C2.  A nil source list is classified [copyURLsTypeInvalid] whatever the
    target, but the empty list that is not nil passes the [== nil] test
    meant to catch "Source list is empty" and is classified
    [copyURLsTypeD]: on [([]string{}, "out/")] the classifier does not
    answer Invalid. *)
Theorem guessCopyURLType_empty_sources :
  (forall targetURL, guessCopyURLType NilSlice targetURL = copyURLsTypeInvalid)
  /\ guessCopyURLType (Slice []) "out/" = copyURLsTypeD.
Proof.
  split.
  - intros targetURL. unfold guessCopyURLType.
    destruct (_ || _); reflexivity.
  - reflexivity.
Qed.

(** C4.  With a source list that is not empty and a target that is not
    blank: one recursive source gives type C (recursive directory to
    directory); one source that is not recursive gives type B when the target
    is an existing directory and type A otherwise; more than one source
    gives type D.  The recursive test comes first. *)
Theorem guessCopyURLType_shapes (sourceURLs : slice) (targetURL : string) :
  elements sourceURLs <> [] ->
  TrimSpace targetURL <> "" ->
  (forall s, elements sourceURLs = [s] -> isURLRecursive s = true ->
     guessCopyURLType sourceURLs targetURL = copyURLsTypeC)
  /\ (forall s, elements sourceURLs = [s] -> isURLRecursive s = false ->
        isTargetURLDir targetURL = true ->
        guessCopyURLType sourceURLs targetURL = copyURLsTypeB)
  /\ (forall s, elements sourceURLs = [s] -> isURLRecursive s = false ->
        isTargetURLDir targetURL = false ->
        guessCopyURLType sourceURLs targetURL = copyURLsTypeA)
  /\ ((1 < List.length (elements sourceURLs))%nat ->
        guessCopyURLType sourceURLs targetURL = copyURLsTypeD).
Proof.
  intros Hne Hblank.
  assert (Ht : String.eqb (TrimSpace targetURL) "" || String.eqb targetURL ""
               = false).
  { apply orb_false_iff. split; apply String.eqb_neq; [exact Hblank|].
    intros ->. apply Hblank. reflexivity. }
  assert (Hn : isNil sourceURLs = false).
  { destruct sourceURLs; [exfalso; apply Hne; reflexivity | reflexivity]. }
  unfold guessCopyURLType. rewrite Ht, Hn. unfold len.
  repeat split.
  - intros s Hs Hr. rewrite Hs. simpl. rewrite Hr. reflexivity.
  - intros s Hs Hr Hd. rewrite Hs. simpl. rewrite Hr, Hd. reflexivity.
  - intros s Hs Hr Hd. rewrite Hs. simpl. rewrite Hr, Hd. reflexivity.
  - intros Hlen.
    destruct (Z.eqb_spec (Z.of_nat (List.length (elements sourceURLs))) 1)
      as [E|E]; [lia | reflexivity].
Qed.

(** C6.  The type A plan is one instruction and then the channel is closed:
    an error instruction when the stat of the source fails or the source is
    not a regular file, else the instruction that carries the source and
    the target paths as they were given. *)
Theorem prepareCopyURLsTypeA_one_instruction (sourceURL targetURL : string) :
  (forall err, url2Stat sourceURL = Failed err ->
     prepareCopyURLsTypeA sourceURL targetURL = [errorURLs err])
  /\ (forall clnt c, url2Stat sourceURL = Ok (clnt, c) ->
        FileMode.IsRegular (Type_ c) = false ->
        prepareCopyURLsTypeA sourceURL targetURL
        = [errorURLs (errInvalidSource sourceURL)])
  /\ (forall clnt c, url2Stat sourceURL = Ok (clnt, c) ->
        FileMode.IsRegular (Type_ c) = true ->
        exists src tgt,
          prepareCopyURLsTypeA sourceURL targetURL
          = [mkCopyURLs (Some src) (Some tgt) None]
          /\ Name src = sourceURL /\ Name tgt = targetURL
          /\ Type_ src = Type_ c /\ Size src = Size c)
  /\ List.length (prepareCopyURLsTypeA sourceURL targetURL) = 1%nat.
Proof.
  unfold prepareCopyURLsTypeA. repeat split.
  - intros err ->. reflexivity.
  - intros clnt c -> ->. reflexivity.
  - intros clnt c -> ->. simpl.
    exists (withName c sourceURL), (namedContent targetURL).
    repeat split.
  - destruct (url2Stat sourceURL) as [[clnt c]|err]; [|reflexivity].
    destruct (negb _); reflexivity.
Qed.

(** The target URL the type B plan computes:
    [join(target_dir, basename(source))] on the parsed paths. *)
Definition joinedTarget (sourceURLParse targetURLParse : URL) : string :=
  URLString (withPath targetURLParse
               (filepathJoin (Path targetURLParse)
                  (FilePath.Base (Path sourceURLParse)))).

(** C7.  For a source that is an existing regular file (both URLs parse),
    the type B plan is the type A plan of the source and the joined target,
    and its one instruction names that joined target. *)
Theorem prepareCopyURLsTypeB_joins_basename
  (sourceURL targetURL : string) clnt c su tu :
  url2Stat sourceURL = Ok (clnt, c) ->
  FileMode.IsRegular (Type_ c) = true ->
  Parse sourceURL = Ok su ->
  Parse targetURL = Ok tu ->
  prepareCopyURLsTypeB sourceURL targetURL
  = prepareCopyURLsTypeA sourceURL (joinedTarget su tu)
  /\ prepareCopyURLsTypeB sourceURL targetURL
     = [mkCopyURLs (Some (withName c sourceURL))
          (Some (namedContent (joinedTarget su tu))) None].
Proof.
  intros Hs Hr Hps Hpt.
  unfold prepareCopyURLsTypeB, prepareCopyURLsTypeA, joinedTarget.
  rewrite Hs, Hr, Hps, Hpt. simpl. split; reflexivity.
Qed.

(** An event that carries an error or a content. *)
Definition wellFormed (ev : ContentOnChannel) : Prop :=
  EvErr ev <> None \/ EvContent ev <> None.

Lemma typeC_entry_closed sourceURL targetURL ev :
  wellFormed ev -> snd (typeC_entry sourceURL targetURL ev) = Closed.
Proof.
  intros W. unfold wellFormed in W. unfold typeC_entry.
  destruct (EvErr ev); [reflexivity|].
  destruct (EvContent ev) as [c|]; [| destruct W; congruence].
  destruct (negb _); [reflexivity|].
  destruct (Parse sourceURL); [|reflexivity].
  destruct (Parse targetURL); [|reflexivity].
  destruct (Parse _); reflexivity.
Qed.

Lemma typeC_loop_app sourceURL targetURL l1 l2 :
  Forall wellFormed l1 ->
  typeC_loop sourceURL targetURL (l1 ++ l2)
  = (fst (typeC_loop sourceURL targetURL l1)
     ++ fst (typeC_loop sourceURL targetURL l2),
     snd (typeC_loop sourceURL targetURL l2)).
Proof.
  induction 1 as [|ev l1 W _ IH]; simpl.
  - destruct (typeC_loop sourceURL targetURL l2); reflexivity.
  - pose proof (typeC_entry_closed sourceURL targetURL ev W) as Hc.
    destruct (typeC_entry sourceURL targetURL ev) as [out st].
    simpl in Hc. subst st. rewrite IH. simpl.
    rewrite app_assoc. reflexivity.
Qed.

Lemma typeC_entry_regular sourceURL targetURL ev c :
  EvErr ev = None -> EvContent ev = Some c ->
  FileMode.IsRegular (Type_ c) = true ->
  exists m, typeC_entry sourceURL targetURL ev = ([m], Closed).
Proof.
  intros He Hc Hr. unfold typeC_entry. rewrite He, Hc, Hr. simpl.
  destruct (Parse sourceURL); [|eexists; reflexivity].
  destruct (Parse targetURL); [|eexists; reflexivity].
  destruct (Parse _); [|eexists; reflexivity].
  unfold prepareCopyURLsTypeA.
  destruct (url2Stat _) as [[clnt c']|err]; [|eexists; reflexivity].
  destruct (negb _); eexists; reflexivity.
Qed.

(** C8.  For a recursive source that is an existing directory, the plan is
    the concatenation, in listing order, of what each event yields: an
    error event yields the error instruction alone, an entry that is a
    directory (or any entry that is not a regular file) yields nothing, a
    regular file yields one instruction (the type A plan of that file), and
    the events after an event are enumerated whatever it yielded. *)
Theorem prepareCopyURLsTypeC_per_entry
  (sourceURL targetURL : string) clnt dir before ev after :
  isURLRecursive sourceURL = true ->
  url2Stat (stripRecursiveURL sourceURL) = Ok (clnt, dir) ->
  FileMode.IsDir (Type_ dir) = true ->
  List clnt true = before ++ ev :: after ->
  Forall wellFormed before ->
  wellFormed ev ->
  let root := stripRecursiveURL sourceURL in
  exists yielded,
    fst (prepareCopyURLsTypeC sourceURL targetURL)
    = fst (typeC_loop root targetURL before) ++ yielded
      ++ fst (typeC_loop root targetURL after)
    /\ (forall err, EvErr ev = Some err -> yielded = [errorURLs err])
    /\ (forall c, EvErr ev = None -> EvContent ev = Some c ->
          FileMode.IsDir (Type_ c) = true -> yielded = [])
    /\ (forall c, EvErr ev = None -> EvContent ev = Some c ->
          FileMode.IsRegular (Type_ c) = false -> yielded = [])
    /\ (forall c, EvErr ev = None -> EvContent ev = Some c ->
          FileMode.IsRegular (Type_ c) = true ->
          (exists m, yielded = [m])
          /\ (forall su tu cu clnt' c',
                Parse root = Ok su -> Parse targetURL = Ok tu ->
                Parse (slice_to (URLString su)
                         (LastIndex (URLString su)
                            (string_of_rune (Separator su)) + 1)
                       ++ Name c)%string = Ok cu ->
                url2Stat (URLString cu) = Ok (clnt', c') ->
                FileMode.IsRegular (Type_ c') = true ->
                yielded
                = [mkCopyURLs (Some (withName c' (URLString cu)))
                     (Some (namedContent
                        (URLString (withPath tu
                           (filepathJoin (Path tu) (Name c)))))) None])).
Proof.
  intros Hrec Hstat Hdir Hlist Wb Wev root. subst root.
  set (root := stripRecursiveURL sourceURL) in *.
  exists (fst (typeC_entry root targetURL ev)).
  split.
  - unfold prepareCopyURLsTypeC. rewrite Hrec. simpl.
    fold root. rewrite Hstat, Hdir. simpl. rewrite Hlist.
    rewrite (typeC_loop_app root targetURL before (ev :: after) Wb).
    simpl. f_equal.
    pose proof (typeC_entry_closed root targetURL ev Wev) as Hc.
    destruct (typeC_entry root targetURL ev) as [out st].
    simpl in Hc. subst st. reflexivity.
  - split; [|split; [|split]].
    + intros err He. unfold typeC_entry. rewrite He. reflexivity.
    + intros c He Hc Hd. unfold typeC_entry. rewrite He, Hc.
      rewrite (IsDir_not_regular _ Hd). reflexivity.
    + intros c He Hc Hr. unfold typeC_entry. rewrite He, Hc, Hr.
      reflexivity.
    + intros c He Hc Hr. split.
      * destruct (typeC_entry_regular root targetURL ev c He Hc Hr)
          as [m Hm].
        exists m. rewrite Hm. reflexivity.
      * intros su tu cu clnt' c' Hps Hpt Hpc Hst Hr'.
        unfold typeC_entry. rewrite He, Hc, Hr. simpl.
        rewrite Hps, Hpt, Hpc. unfold prepareCopyURLsTypeA.
        rewrite Hst, Hr'. reflexivity.
Qed.

End WithBackend.

End CpFacts.

(** ** The byte order of Go strings ([<] and [==] on [string]) *)

Module StringOrder.

Definition lt (a b : string) : Prop := (a <? b)%string = true.
Definition le (a b : string) : Prop := (b <? a)%string = false.

Lemma ascii_compare_refl (a : ascii) : Ascii.compare a a = Eq.
Proof. unfold Ascii.compare. apply N.compare_refl. Qed.

Lemma ascii_compare_lt_trans (a b c : ascii) :
  Ascii.compare a b = Lt -> Ascii.compare b c = Lt -> Ascii.compare a c = Lt.
Proof.
  unfold Ascii.compare. rewrite !N.compare_lt_iff. apply N.lt_trans.
Qed.

Lemma compare_refl (s : string) : (s ?= s)%string = Eq.
Proof.
  induction s as [|c s IH]; simpl; [reflexivity|].
  rewrite ascii_compare_refl. exact IH.
Qed.

Lemma compare_lt_trans (a b c : string) :
  (a ?= b)%string = Lt -> (b ?= c)%string = Lt -> (a ?= c)%string = Lt.
Proof.
  revert b c. induction a as [|x a IH]; intros [|y b] [|z c]; simpl;
    try discriminate; try reflexivity.
  destruct (Ascii.compare x y) eqn:Exy; try discriminate;
    destruct (Ascii.compare y z) eqn:Eyz; try discriminate; intros H1 H2.
  - apply Ascii.compare_eq_iff in Exy, Eyz. subst.
    rewrite ascii_compare_refl. eapply IH; eassumption.
  - apply Ascii.compare_eq_iff in Exy. subst. rewrite Eyz. reflexivity.
  - apply Ascii.compare_eq_iff in Eyz. subst. rewrite Exy. reflexivity.
  - rewrite (ascii_compare_lt_trans _ _ _ Exy Eyz). reflexivity.
Qed.

Lemma lt_compare (a b : string) : lt a b <-> (a ?= b)%string = Lt.
Proof.
  unfold lt, String.ltb. destruct (a ?= b)%string; split; congruence.
Qed.

Lemma lt_irrefl (a : string) : ~ lt a a.
Proof. rewrite lt_compare, compare_refl. discriminate. Qed.

Lemma lt_trans (a b c : string) : lt a b -> lt b c -> lt a c.
Proof. rewrite !lt_compare. apply compare_lt_trans. Qed.

Lemma le_cases (a b : string) : le a b <-> lt a b \/ a = b.
Proof.
  unfold le. split.
  - intros H. destruct (a ?= b)%string eqn:E.
    + right. apply String.compare_eq_iff. exact E.
    + left. apply lt_compare. exact E.
    + exfalso. rewrite String.compare_antisym in E.
      unfold String.ltb in H.
      destruct (b ?= a)%string; simpl in E; congruence.
  - intros [H | ->].
    + apply lt_compare in H. unfold String.ltb.
      rewrite String.compare_antisym, H. reflexivity.
    + unfold String.ltb. rewrite compare_refl. reflexivity.
Qed.

Lemma le_refl (a : string) : le a a.
Proof. apply le_cases. right. reflexivity. Qed.

Lemma lt_le (a b : string) : lt a b -> le a b.
Proof. intros H. apply le_cases. left. exact H. Qed.

Lemma le_trans (a b c : string) : le a b -> le b c -> le a c.
Proof.
  rewrite !le_cases. intros [H1 | ->] [H2 | ->]; auto.
  left. eapply lt_trans; eassumption.
Qed.

Lemma lt_le_trans (a b c : string) : lt a b -> le b c -> lt a c.
Proof.
  rewrite le_cases. intros H1 [H2 | ->]; auto.
  eapply lt_trans; eassumption.
Qed.

Lemma le_lt_trans (a b c : string) : le a b -> lt b c -> lt a c.
Proof.
  rewrite le_cases. intros [H1 | ->] H2; auto.
  eapply lt_trans; eassumption.
Qed.

Lemma lt_neq (a b : string) : lt a b -> (a =? b)%string = false.
Proof.
  intros H. apply String.eqb_neq. intros ->. exact (lt_irrefl _ H).
Qed.

Lemma lt_not_le (a b : string) : lt a b -> ~ le b a.
Proof. unfold lt, le. congruence. Qed.

(** The third branch of the loop of [isAvailable]: neither [e < c] nor
    [e == c]. *)
Lemma gt_of_tests (e c : string) :
  (e <? c)%string = false -> (e =? c)%string = false -> lt c e.
Proof.
  intros H1 H2. fold (le c e) in H1. apply le_cases in H1.
  destruct H1 as [H | ->]; [exact H|].
  rewrite String.eqb_refl in H2. discriminate.
Qed.

(** A list of paths in the order a listing delivers them. *)
Fixpoint nondecreasing (l : list string) : bool :=
  match l with
  | [] => true
  | a :: rest =>
      match rest with
      | [] => true
      | b :: _ => negb (b <? a)%string && nondecreasing rest
      end
  end.

Lemma nondecreasing_tail (a : string) (l : list string) :
  nondecreasing (a :: l) = true -> nondecreasing l = true.
Proof.
  destruct l as [|b l]; [reflexivity|]. simpl.
  intros H. apply andb_true_iff in H. apply H.
Qed.

Lemma nondecreasing_head (a : string) (l : list string) :
  nondecreasing (a :: l) = true -> Forall (le a) l.
Proof.
  revert a. induction l as [|b l IH]; intros a H; [constructor|].
  pose proof (nondecreasing_tail _ _ H) as Ht.
  simpl in H. apply andb_true_iff in H. destruct H as [Hab _].
  apply negb_true_iff in Hab. constructor; [exact Hab|].
  eapply Forall_impl; [|apply (IH b Ht)].
  intros c Hc. eapply le_trans; eassumption.
Qed.

End StringOrder.

(** ** The availability oracle as a merge cursor *)

Module OracleFacts.
Import GoStrings Client Mirror StringOrder.

Section WithBackend.
Context {B : Backend}.

(** The full path of a listed entry: [content.Content.URL.String()]. *)
Definition pathOf (c : Content) : string := URLString (ContentURL c).

(** The first entry of a listing that has the path [p]. *)
Fixpoint lookupPath (p : string) (events : list ContentOnChannel)
  : option Content :=
  match events with
  | [] => None
  | ev :: rest =>
      match EvContent ev with
      | Some c => if (pathOf c =? p)%string then Some c else lookupPath p rest
      | None => lookupPath p rest
      end
  end.

Definition pathsOf (events : list ContentOnChannel) : list string :=
  flat_map (fun ev => match EvContent ev with
                      | Some c => [pathOf c]
                      | None => []
                      end) events.

(** A listing without error events, every event carrying an entry. *)
Definition entriesOnly (events : list ContentOnChannel) : bool :=
  forallb (fun ev => isNone (EvErr ev) && negb (isNone (EvContent ev))) events.

(** What the comparison at [expected == current] answers for the entry
    [hit] found at the expected path, and what is answered when there is
    none. *)
Definition verdict (mirrorIsForce : bool) (srcType srcSize : Z)
  (expected : string) (hit : option Content) : outcome (bool * option error) :=
  match hit with
  | None => Returns (false, None)
  | Some tgt =>
      if FileMode.IsRegular srcType && negb (FileMode.IsRegular (Type_ tgt))
      then Returns (false, Some (errInvalidTarget expected))
      else if (FileMode.IsRegular srcType && FileMode.IsRegular (Type_ tgt))
              && negb (srcSize =? Size tgt)
      then if negb mirrorIsForce
           then Returns (false, Some (errOverWriteNotAllowed expected))
           else Returns (false, None)
      else Returns (true, None)
  end.

(** The entry the cursor and the events not yet received hold at [p]. *)
Definition ahead (o : oracle) (p : string) : option Content :=
  if (p =? current o)%string then EvContent (content o)
  else if (p <? current o)%string then None
  else lookupPath p (ch o).

(** The cursor [o] over the listing [S] has skipped nothing at or above
    [lo]. *)
Definition Inv (S : list ContentOnChannel) (lo : string) (o : oracle) : Prop :=
  if reachedEOF o then forall p, le lo p -> lookupPath p S = None
  else entriesOnly (ch o) = true
       /\ nondecreasing (pathsOf (ch o)) = true
       /\ (forall p, le lo p -> ahead o p = lookupPath p S)
       /\ (le lo (current o) -> EvContent (content o) <> None).

Lemma Inv_weaken S lo lo' o : le lo lo' -> Inv S lo o -> Inv S lo' o.
Proof.
  intros Hle. unfold Inv. destruct (reachedEOF o).
  - intros H p Hp. apply H. eapply le_trans; eassumption.
  - intros (He & Hs & Ha & Hc). repeat split; auto.
    + intros p Hp. apply Ha. eapply le_trans; eassumption.
    + intros Hp. apply Hc. eapply le_trans; eassumption.
Qed.

Lemma lookupPath_below (p : string) (events : list ContentOnChannel) :
  Forall (lt p) (pathsOf events) -> lookupPath p events = None.
Proof.
  induction events as [|ev rest IH]; simpl; [reflexivity|].
  destruct (EvContent ev) as [c|]; simpl; intros H.
  - inversion H as [|? ? Hc Hrest]; subst.
    destruct (String.eqb_spec (pathOf c) p) as [E|E].
    + exfalso. rewrite E in Hc. exact (lt_irrefl _ Hc).
    + apply IH. exact Hrest.
  - apply IH. exact H.
Qed.

(** Establish: the closure as [getIsAvailable] returns it. *)
Lemma Inv_initial (u lo : string) (S : list ContentOnChannel) :
  entriesOnly S = true -> nondecreasing (pathsOf S) = true -> lt u lo ->
  Inv S lo (mkOracle u S u false false zeroEvent).
Proof.
  intros He Hs Hlt. unfold Inv. simpl. repeat split; auto.
  - intros p Hp. unfold ahead. simpl.
    pose proof (lt_le_trans _ _ _ Hlt Hp) as Hup.
    rewrite (String.eqb_sym p u), (lt_neq _ _ Hup).
    rewrite (lt_le _ _ Hup). reflexivity.
  - intros Hp. exfalso. exact (lt_not_le _ _ Hlt Hp).
Qed.

(** Preserve and use: one run of the loop from a cursor that has not
    reached the end. *)
Lemma isAvailable_loop_spec (force : bool) (u e : string) (srcType srcSize : Z)
  (S : list ContentOnChannel) :
  forall chan cur okv cont,
    Inv S e (mkOracle u chan cur false okv cont) ->
    let res := isAvailable_loop force u e srcType srcSize chan cur okv cont in
    fst res = verdict force srcType srcSize e (lookupPath e S)
    /\ Inv S e (snd res) /\ url (snd res) = u.
Proof.
  induction chan as [|ev rest IH]; intros cur okv cont HI;
    pose proof HI as HI'; unfold Inv in HI'; simpl in HI';
    destruct HI' as (He & Hs & Ha & Hc); simpl;
    (destruct (e <? cur)%string eqn:Elt;
     [| destruct (e =? cur)%string eqn:Eeq]).
  1, 4:
    (simpl; split; [| split; [exact HI | reflexivity]];
     rewrite <- (Ha e (le_refl e)); unfold ahead; simpl;
     rewrite (lt_neq _ _ Elt), Elt; reflexivity).
  1, 3:
    (apply String.eqb_eq in Eeq; subst cur;
     specialize (Hc (le_refl e));
     specialize (Ha e (le_refl e)); unfold ahead in Ha; simpl in Ha;
     rewrite String.eqb_refl in Ha;
     destruct (EvContent cont) as [tgt|] eqn:Ec; [| congruence];
     rewrite <- Ha; unfold verdict;
     destruct (FileMode.IsRegular srcType
               && negb (FileMode.IsRegular (Type_ tgt)));
     [simpl; split; [| split; [exact HI |]]; reflexivity|];
     destruct ((FileMode.IsRegular srcType && FileMode.IsRegular (Type_ tgt))
               && negb (srcSize =? Size tgt));
     [destruct (negb force)|];
     simpl; (split; [| split; [exact HI |]]; reflexivity)).
  - (* the channel is closed *)
    simpl. split; [| split; [| reflexivity]].
    + rewrite <- (Ha e (le_refl e)). unfold ahead. simpl.
      rewrite Eeq, Elt. reflexivity.
    + unfold Inv. simpl. intros p Hp. rewrite <- (Ha p Hp).
      pose proof (lt_le_trans _ _ _ (gt_of_tests _ _ Elt Eeq) Hp) as Hcp.
      unfold ahead. simpl.
      rewrite (String.eqb_sym p cur), (lt_neq _ _ Hcp), (lt_le _ _ Hcp).
      reflexivity.
  - (* one more event is received *)
    simpl in He. apply andb_true_iff in He. destruct He as [Hev He].
    apply andb_true_iff in Hev. destruct Hev as [Herr Hcon].
    destruct (EvErr ev); [discriminate|].
    destruct (EvContent ev) as [c|] eqn:Ec; [|discriminate].
    apply IH. unfold Inv. simpl.
    simpl in Hs.
    pose proof (gt_of_tests _ _ Elt Eeq) as Hgt.
    split; [exact He | split; [| split]].
    + eapply nondecreasing_tail. exact Hs.
    + intros p Hp. rewrite <- (Ha p Hp).
      pose proof (lt_le_trans _ _ _ Hgt Hp) as Hcp.
      unfold ahead. simpl. rewrite Ec. fold (pathOf c).
      rewrite (String.eqb_sym p cur), (lt_neq _ _ Hcp), (lt_le _ _ Hcp).
      rewrite (String.eqb_sym p (pathOf c)).
      destruct (pathOf c =? p)%string eqn:Ep; [reflexivity|].
      destruct (p <? pathOf c)%string eqn:Epl; [|reflexivity].
      symmetry. apply lookupPath_below.
      eapply Forall_impl; [| apply (nondecreasing_head _ _ Hs)].
      intros q Hq. eapply lt_le_trans; eassumption.
    + rewrite Ec. discriminate.
Qed.

(** One call of the closure answers the verdict on the first entry of the
    listing at the expected path, and leaves a cursor good for every later
    path. *)
Lemma isAvailable_spec (force : bool) (S : list ContentOnChannel)
  (o : oracle) (suffix : string) (srcType srcSize : Z) :
  let e := urlJoinPath (url o) suffix in
  Inv S e o ->
  let res := isAvailable force o suffix srcType srcSize in
  fst res = verdict force srcType srcSize e (lookupPath e S)
  /\ Inv S e (snd res) /\ url (snd res) = url o.
Proof.
  intros e HI. unfold isAvailable.
  destruct (reachedEOF o) eqn:Eof.
  - simpl. split; [| split; [exact HI | reflexivity]].
    unfold Inv in HI. rewrite Eof in HI.
    rewrite (HI e (le_refl e)). reflexivity.
  - apply isAvailable_loop_spec.
    destruct o as [u chan cur eof okv cont]. simpl in *. subst eof.
    exact HI.
Qed.

(** The expected path of a query [(suffix, srcType, srcSize)] put to the
    closure of the target root [u]. *)
Definition expectedOf (u : string) (q : string * Z * Z) : string :=
  urlJoinPath u (fst (fst q)).

Definition answerOf (force : bool) (u : string) (S : list ContentOnChannel)
  (q : string * Z * Z) : outcome (bool * option error) :=
  verdict force (snd (fst q)) (snd q) (expectedOf u q)
    (lookupPath (expectedOf u q) S).

(** The cursor is good for the first of the paths still to be asked. *)
Definition Ready (S : list ContentOnChannel) (keys : list string)
  (o : oracle) : Prop :=
  match keys with
  | [] => True
  | k :: _ => Inv S k o
  end.

Lemma Ready_next S k keys o :
  nondecreasing (k :: keys) = true -> Inv S k o -> Ready S keys o.
Proof.
  intros Hs HI. destruct keys as [|k' keys]; simpl; [exact I|].
  eapply Inv_weaken; [| exact HI].
  pose proof (nondecreasing_head _ _ Hs) as Hh.
  inversion Hh; assumption.
Qed.

Lemma askAll_spec (force : bool) (S : list ContentOnChannel) :
  forall qs o,
    Ready S (map (expectedOf (url o)) qs) o ->
    nondecreasing (map (expectedOf (url o)) qs) = true ->
    askAll force o qs = map (answerOf force (url o) S) qs.
Proof.
  induction qs as [|[[suffix srcType] srcSize] qs IH]; intros o HR Hs;
    simpl; [reflexivity|].
  simpl in HR.
  destruct (isAvailable_spec force S o suffix srcType srcSize HR)
    as (Hv & HI & Hu).
  destruct (isAvailable force o suffix srcType srcSize) as [r o'].
  simpl in Hv, HI, Hu. subst r. f_equal.
  rewrite <- Hu. apply IH.
  - rewrite Hu. eapply Ready_next; [exact Hs | exact HI].
  - rewrite Hu. eapply nondecreasing_tail. exact Hs.
Qed.

Lemma lookupPath_absent (p : string) (events : list ContentOnChannel) :
  (forall ev c, In ev events -> EvContent ev = Some c -> pathOf c <> p) ->
  lookupPath p events = None.
Proof.
  induction events as [|ev rest IH]; intros H; simpl; [reflexivity|].
  destruct (EvContent ev) as [c|] eqn:Ec.
  - destruct (String.eqb_spec (pathOf c) p) as [E|E].
    + exfalso. exact (H ev c (or_introl eq_refl) Ec E).
    + apply IH. intros ev' c' Hin. apply H. right. exact Hin.
  - apply IH. intros ev' c' Hin. apply H. right. exact Hin.
Qed.

Lemma lookupPath_found (p : string) (events : list ContentOnChannel) c :
  lookupPath p events = Some c ->
  pathOf c = p /\ exists ev, In ev events /\ EvContent ev = Some c.
Proof.
  induction events as [|ev rest IH]; simpl; [discriminate|].
  destruct (EvContent ev) as [c'|] eqn:Ec.
  - destruct (String.eqb_spec (pathOf c') p) as [E|E].
    + intros [= <-]. split; [exact E|]. exists ev. auto.
    + intros H. destruct (IH H) as (Hp & ev' & Hin & Hev).
      split; [exact Hp|]. exists ev'. auto.
  - intros H. destruct (IH H) as (Hp & ev' & Hin & Hev).
    split; [exact Hp|]. exists ev'. auto.
Qed.

(** What the closure of a freshly opened target answers to a sequence of
    queries. *)
Lemma askAll_fresh (force : bool) (u : string) clnt (qs : list (string * Z * Z)) :
  url2Client u = Ok clnt ->
  let S := List clnt true false in
  entriesOnly S = true ->
  nondecreasing (pathsOf S) = true ->
  forallb (fun q => (u <? expectedOf u q)%string) qs = true ->
  nondecreasing (map (expectedOf u) qs) = true ->
  exists o, getIsAvailable u = Ok o
    /\ askAll force o qs = map (answerOf force u S) qs.
Proof.
  intros Hc S He Hs Hroot Hq.
  unfold getIsAvailable. rewrite Hc. eexists. split; [reflexivity|].
  fold S.
  apply (askAll_spec force S qs (mkOracle u S u false false zeroEvent));
    simpl; [| exact Hq].
  destruct qs as [|q qs]; simpl; [exact I|].
  simpl in Hroot. apply andb_true_iff in Hroot.
  apply Inv_initial; [exact He | exact Hs | apply Hroot].
Qed.

(** The answer [r] to the query [q] agrees with the listing [S] of the
    target root [u]: the call returned; it said "available" exactly when
    the first entry listed at the expected path is a regular file of the
    size asked; it said "not available" without error when no entry has
    the expected path. *)
Definition agreesWith (u : string) (S : list ContentOnChannel)
  (q : string * Z * Z) (r : outcome (bool * option error)) : Prop :=
  exists available err,
    r = Returns (available, err)
    /\ (available = true <->
        exists c, lookupPath (expectedOf u q) S = Some c
                  /\ FileMode.IsRegular (Type_ c) = true
                  /\ Size c = snd q)
    /\ ((forall ev c, In ev S -> EvContent ev = Some c ->
           pathOf c <> expectedOf u q) ->
        available = false /\ err = None).

(** C1, as the code has it.  Over a listing without error events that is
    delivered in non-decreasing order of path, and for queries about regular
    files whose expected paths lie after the target root and do not
    decrease, every call returns; it answers [true] exactly when the
    first entry listed at the expected path is a regular file of the size
    asked, and [false] without error when no entry has the expected
    path. *)
Theorem isAvailable_merge_join (force : bool) (u : string) clnt
  (qs : list (string * Z * Z)) :
  url2Client u = Ok clnt ->
  entriesOnly (List clnt true false) = true ->
  nondecreasing (pathsOf (List clnt true false)) = true ->
  forallb (fun q => (u <? expectedOf u q)%string) qs = true ->
  nondecreasing (map (expectedOf u) qs) = true ->
  forallb (fun q => FileMode.IsRegular (snd (fst q))) qs = true ->
  exists o, getIsAvailable u = Ok o
    /\ Forall2 (agreesWith u (List clnt true false)) qs (askAll force o qs).
Proof.
  intros Hc He Hs Hroot Hq Hreg.
  destruct (askAll_fresh force u clnt qs Hc He Hs Hroot Hq) as (o & Ho & Ha).
  exists o. split; [exact Ho|]. rewrite Ha. clear Ha Hroot Hq.
  induction qs as [|q qs IH]; simpl; constructor.
  - simpl in Hreg. apply andb_true_iff in Hreg. destruct Hreg as [Hr _].
    unfold agreesWith, answerOf, verdict. rewrite Hr.
    destruct (lookupPath (expectedOf u q) (List clnt true false))
      as [tgt|] eqn:El.
    + simpl. destruct (FileMode.IsRegular (Type_ tgt)) eqn:Et; simpl.
      * destruct (Z.eqb_spec (snd q) (Size tgt)) as [Ez|Ez]; simpl.
        -- exists true, None. split; [reflexivity|]. split.
           ++ split; [|reflexivity]. intros _. exists tgt. auto.
           ++ intros Habs. rewrite (lookupPath_absent _ _ Habs) in El.
              discriminate.
        -- assert (Hno : ~ exists c, Some tgt = Some c
                      /\ FileMode.IsRegular (Type_ c) = true
                      /\ Size c = snd q).
           { intros (c & [= <-] & _ & Hsz). auto. }
           destruct (negb force);
             eexists false, _; (split; [reflexivity|]); split;
             try (split; [discriminate | intros Hex; destruct (Hno Hex)]);
             intros Habs; rewrite (lookupPath_absent _ _ Habs) in El;
             discriminate.
      * eexists false, _. split; [reflexivity|]. split.
        -- split; [discriminate|]. intros (c & [= <-] & Hrc & _).
           congruence.
        -- intros Habs. rewrite (lookupPath_absent _ _ Habs) in El.
           discriminate.
    + exists false, None. split; [reflexivity|]. split.
      * split; [discriminate|]. intros (c & Hc' & _). discriminate.
      * auto.
  - apply IH. simpl in Hreg. apply andb_true_iff in Hreg. apply Hreg.
Qed.

End WithBackend.

End OracleFacts.

(** ** The delta engine against its plan *)

Module EngineFacts.
Import GoStrings Client Mirror StringOrder OracleFacts.

Section WithBackend.
Context {B : Backend}.

(** The events the listing channel of the root [t] delivers. *)
Definition listingOf (t : string) : list ContentOnChannel :=
  match url2Client t with
  | Ok clnt => List clnt true false
  | Failed _ => []
  end.

(** The entries of a listing the engine does not skip. *)
Definition filesOf (events : list ContentOnChannel) : list Content :=
  flat_map (fun ev => match EvContent ev with
                      | Some c => if FileMode.IsDir (Type_ c) then [] else [c]
                      | None => []
                      end) events.

(** The verdict of the target root [t] on the source entry [c]. *)
Definition targetVerdict (force : bool) (suffix : string) (c : Content)
  (t : string) : outcome (bool * option error) :=
  verdict force (Type_ c) (Size c) (urlJoinPath t suffix)
    (lookupPath (urlJoinPath t suffix) (listingOf t)).

Definition errorsOf (force : bool) (suffix : string) (c : Content)
  (ts : list string) : list mirrorURLs :=
  flat_map (fun t => match targetVerdict force suffix c t with
                     | Returns (_, Some err) => [errorURLs err]
                     | _ => []
                     end) ts.

Definition missingOf (force : bool) (suffix : string) (c : Content)
  (ts : list string) : list Content :=
  flat_map (fun t => match targetVerdict force suffix c t with
                     | Returns (false, None) =>
                         [targetContentOf (NewURL (urlJoinPath t suffix))]
                     | _ => []
                     end) ts.

(** What one source entry adds to the output. *)
Definition planOf (force : bool) (suffix : string) (c : Content)
  (ts : list string) : list mirrorURLs :=
  errorsOf force suffix c ts
  ++ match missingOf force suffix c ts with
     | [] => []
     | tcs => [mkMirrorURLs (Some c) tcs None]
     end.

(** The closure [o] is good for the suffixes still to come. *)
Definition Tracks (suffixes : list string) (o : oracle) : Prop :=
  Ready (listingOf (url o)) (map (urlJoinPath (url o)) suffixes) o
  /\ nondecreasing (map (urlJoinPath (url o)) suffixes) = true.

(** The target root [t] can be merged against the source entries [files]:
    it has a client, its listing has no error event and does not decrease,
    and the expected paths lie after [t] and do not decrease. *)
Definition mergeable (sourceURL sourceBaseDir : string) (files : list Content)
  (t : string) : bool :=
  let keys :=
    map (fun c => urlJoinPath t (suffixOf sourceURL sourceBaseDir c)) files in
  match url2Client t with Ok _ => true | Failed _ => false end
  && entriesOnly (listingOf t)
  && nondecreasing (pathsOf (listingOf t))
  && forallb (fun k => (t <? k)%string) keys
  && nondecreasing keys.

Lemma verdict_returns force srcType srcSize e hit :
  exists b oe, verdict force srcType srcSize e hit = Returns (b, oe).
Proof.
  unfold verdict. destruct hit as [tgt|]; [|eauto].
  destruct (_ && negb (FileMode.IsRegular _)); [eauto|].
  destruct (_ && negb (_ =? _)); [|eauto].
  destruct (negb force); eauto.
Qed.

Lemma targetsLoop_spec (force : bool) (suffix : string) (suffixes : list string)
  (c : Content) :
  forall os tcs,
    Forall (Tracks (suffix :: suffixes)) os ->
    exists os',
      targetsLoop force suffix c os (map url os) tcs
      = (errorsOf force suffix c (map url os),
         Returns (os', tcs ++ missingOf force suffix c (map url os)))
      /\ Forall (Tracks suffixes) os'
      /\ map url os' = map url os.
Proof.
  induction os as [|o os IH]; intros tcs HT.
  - exists []. simpl. rewrite app_nil_r. auto.
  - inversion HT as [|? ? [HR Hs] HT']; subst. simpl in HR.
    destruct (isAvailable_spec force (listingOf (url o)) o suffix
                (Type_ c) (Size c) HR) as (Hv & HI & Hu).
    simpl. unfold errorsOf, missingOf. simpl.
    fold (errorsOf force suffix c (map url os)).
    fold (missingOf force suffix c (map url os)).
    destruct (isAvailable force o suffix (Type_ c) (Size c)) as [r o'].
    simpl in Hv, HI, Hu. fold (targetVerdict force suffix c (url o)) in Hv.
    subst r.
    assert (HT1 : Tracks suffixes o').
    { split; rewrite Hu.
      - eapply Ready_next; [exact Hs | exact HI].
      - eapply nondecreasing_tail. exact Hs. }
    destruct (verdict_returns force (Type_ c) (Size c)
                (urlJoinPath (url o) suffix)
                (lookupPath (urlJoinPath (url o) suffix) (listingOf (url o))))
      as (b & oe & Hb).
    fold (targetVerdict force suffix c (url o)) in Hb.
    rewrite Hb.
    destruct oe as [err|].
    + destruct (IH tcs HT') as (os' & Hl & HT2 & Hu2).
      rewrite Hl. exists (o' :: os'). destruct b; simpl;
        (repeat split; [constructor; assumption | congruence]).
    + destruct b; simpl.
      * destruct (IH tcs HT') as (os' & Hl & HT2 & Hu2).
        rewrite Hl. exists (o' :: os'). simpl.
        repeat split; [constructor; assumption | congruence].
      * destruct (IH (tcs ++ [targetContentOf
                                (NewURL (urlJoinPath (url o) suffix))]) HT')
          as (os' & Hl & HT2 & Hu2).
        rewrite Hl. exists (o' :: os'). simpl. rewrite <- app_assoc. simpl.
        repeat split; [constructor; assumption | congruence].
Qed.

Lemma sourceLoop_spec (force : bool) (sourceURL sourceBaseDir : string) :
  forall events os,
    entriesOnly events = true ->
    Forall (Tracks (map (suffixOf sourceURL sourceBaseDir) (filesOf events)))
      os ->
    sourceLoop force sourceURL sourceBaseDir (map url os) events os
    = (flat_map (fun c => planOf force (suffixOf sourceURL sourceBaseDir c) c
                            (map url os)) (filesOf events),
       Closed).
Proof.
  induction events as [|ev rest IH]; intros os He HT; [reflexivity|].
  simpl in He. apply andb_true_iff in He. destruct He as [Hev He].
  apply andb_true_iff in Hev. destruct Hev as [Herr Hcon].
  simpl. unfold filesOf in *. simpl in *.
  destruct (EvErr ev); [discriminate|].
  destruct (EvContent ev) as [c|]; [|discriminate].
  destruct (FileMode.IsDir (Type_ c)).
  - simpl in *. apply IH; assumption.
  - simpl in *.
    destruct (targetsLoop_spec force (suffixOf sourceURL sourceBaseDir c)
                _ c os [] HT) as (os' & Hl & HT' & Hu).
    rewrite Hl. simpl. rewrite <- Hu. rewrite (IH os' He HT').
    unfold planOf. rewrite Hu. rewrite <- app_assoc. f_equal. f_equal.
    destruct (missingOf force (suffixOf sourceURL sourceBaseDir c) c
                (map url os)); reflexivity.
Qed.

Lemma openTargets_spec (sourceURL sourceBaseDir : string)
  (files : list Content) :
  forall ts,
    forallb (mergeable sourceURL sourceBaseDir files) ts = true ->
    exists os, openTargets ts = Ok os
      /\ map url os = ts
      /\ Forall (Tracks (map (suffixOf sourceURL sourceBaseDir) files)) os.
Proof.
  induction ts as [|t ts IH]; intros H.
  - exists []. auto.
  - simpl in H. apply andb_true_iff in H. destruct H as [Ht H].
    destruct (IH H) as (os & Ho & Hu & HT).
    unfold mergeable in Ht. repeat (apply andb_true_iff in Ht as [Ht ?]).
    simpl. unfold getIsAvailable. unfold listingOf in *.
    destruct (url2Client t) as [clnt|err] eqn:Ec; [|discriminate].
    rewrite Ho. eexists. split; [reflexivity|]. simpl.
    split; [congruence|]. constructor; [|exact HT].
    unfold Tracks, listingOf. simpl. rewrite Ec.
    rewrite map_map in *. split; [|assumption].
    destruct files as [|c files]; simpl; [exact I|].
    apply Inv_initial; try assumption.
    match goal with
    | Hk : forallb _ _ = true |- _ =>
        simpl in Hk; apply andb_true_iff in Hk; apply Hk
    end.
Qed.

(** The engine computes the plan: under the merge conditions its output
    is, entry by entry, the errors of the targets and then the instruction
    for the targets that miss the entry. *)
Lemma deltaSourceTargets_plan (force : bool) (sourceURL : string)
  (targetURLs : list string) clnt :
  let src := withSeparator sourceURL in
  let base := sourceBaseDirOf sourceURL in
  let ts := map withSeparator targetURLs in
  url2Client src = Ok clnt ->
  entriesOnly (List clnt true false) = true ->
  forallb (mergeable src base (filesOf (List clnt true false))) ts = true ->
  deltaSourceTargets force sourceURL targetURLs
  = (flat_map (fun c => planOf force (suffixOf src base c) c ts)
       (filesOf (List clnt true false)),
     Closed).
Proof.
  intros src base ts Hc He Hm.
  destruct (openTargets_spec src base _ ts Hm) as (os & Ho & Hu & HT).
  unfold deltaSourceTargets. fold src base ts. rewrite Ho, Hc.
  rewrite <- Hu. apply sourceLoop_spec; assumption.
Qed.

(** *** The shape of every instruction, whatever the listings hold *)

Definition isErrorURLs (m : mirrorURLs) : Prop := exists e, m = errorURLs e.

(** [tc] is the target reference of one of the roots [ts] at [suffix]. *)
Definition fromTargets (ts : list string) (suffix : string) (tc : Content)
  : Prop :=
  exists t, In t ts /\ tc = targetContentOf (NewURL (urlJoinPath t suffix)).

Definition wellShaped (sourceURL sourceBaseDir : string) (ts : list string)
  (files : list Content) (m : mirrorURLs) : Prop :=
  isErrorURLs m
  \/ exists c tcs,
       m = mkMirrorURLs (Some c) tcs None /\ tcs <> [] /\ In c files
       /\ Forall (fromTargets ts (suffixOf sourceURL sourceBaseDir c)) tcs.

Lemma fromTargets_tail t ts suffix tc :
  fromTargets ts suffix tc -> fromTargets (t :: ts) suffix tc.
Proof. intros (t' & Hin & E). exists t'. split; [right|]; assumption. Qed.

Lemma targetsLoop_shape (force : bool) (suffix : string) (c : Content) :
  forall os ts tcs out res,
    List.length ts = List.length os ->
    targetsLoop force suffix c os ts tcs = (out, res) ->
    Forall isErrorURLs out
    /\ forall os' tcs', res = Returns (os', tcs') ->
         List.length os' = List.length os
         /\ exists added, tcs' = tcs ++ added
              /\ Forall (fromTargets ts suffix) added.
Proof.
  induction os as [|o os IH]; intros ts tcs out res Hlen H; simpl in H.
  - injection H as <- <-. split; [constructor|].
    intros os' tcs' [= <- <-]. split; [reflexivity|].
    exists []. rewrite app_nil_r. auto.
  - destruct ts as [|t ts]; [discriminate|]. simpl in Hlen, H.
    injection Hlen as Hlen.
    destruct (isAvailable force o suffix (Type_ c) (Size c)) as [r o'].
    destruct r as [[b [err|]]|].
    + destruct (targetsLoop force suffix c os ts tcs) as [out1 res1] eqn:E.
      injection H as <- <-.
      destruct (IH ts tcs out1 res1 Hlen E) as [He Hr].
      split; [constructor; [eexists; reflexivity | exact He]|].
      intros os' tcs' Hres. destruct res1 as [[os1 tcs1]|]; [|discriminate].
      injection Hres as <- <-.
      destruct (Hr os1 tcs1 eq_refl) as (Hl & added & Ea & Hf).
      split; [simpl; congruence|]. exists added. split; [exact Ea|].
      eapply Forall_impl; [|exact Hf]. intros tc. apply fromTargets_tail.
    + destruct (targetsLoop force suffix c os ts _) as [out1 res1] eqn:E.
      injection H as <- <-.
      destruct (IH ts _ out1 res1 Hlen E) as [He Hr].
      split; [exact He|].
      intros os' tcs' Hres. destruct res1 as [[os1 tcs1]|]; [|discriminate].
      injection Hres as <- <-.
      destruct (Hr os1 tcs1 eq_refl) as (Hl & added & Ea & Hf).
      split; [simpl; congruence|].
      assert (Hf' : Forall (fromTargets (t :: ts) suffix) added).
      { eapply Forall_impl; [|exact Hf]. intros tc. apply fromTargets_tail. }
      destruct b; simpl in Ea.
      * exists added. auto.
      * exists (targetContentOf (NewURL (urlJoinPath t suffix)) :: added).
        split; [rewrite Ea, <- app_assoc; reflexivity|].
        constructor; [|exact Hf']. exists t. split; [left|]; reflexivity.
    + injection H as <- <-. split; [constructor|]. discriminate.
Qed.

Lemma wellShaped_more sourceURL sourceBaseDir ts files files' m :
  (forall c, In c files -> In c files') ->
  wellShaped sourceURL sourceBaseDir ts files m ->
  wellShaped sourceURL sourceBaseDir ts files' m.
Proof.
  intros Hsub [He | (c & tcs & Em & Hne & Hin & Hf)]; [left; exact He|].
  right. exists c, tcs. auto.
Qed.

Lemma sourceLoop_shape (force : bool) (sourceURL sourceBaseDir : string)
  (ts : list string) :
  forall events os,
    List.length ts = List.length os ->
    Forall (wellShaped sourceURL sourceBaseDir ts (filesOf events))
      (fst (sourceLoop force sourceURL sourceBaseDir ts events os)).
Proof.
  induction events as [|ev rest IH]; intros os Hlen; simpl; [constructor|].
  unfold filesOf. simpl. fold (filesOf rest).
  destruct (EvErr ev) as [err|].
  - specialize (IH os Hlen).
    destruct (sourceLoop force sourceURL sourceBaseDir ts rest os)
      as [out st]. simpl in *.
    constructor; [left; eexists; reflexivity|].
    eapply Forall_impl; [|exact IH]. intros m.
    apply wellShaped_more. intros c Hc. apply in_or_app. right. exact Hc.
  - destruct (EvContent ev) as [c|]; [|constructor].
    destruct (FileMode.IsDir (Type_ c)); [apply IH; exact Hlen|].
    destruct (targetsLoop force (suffixOf sourceURL sourceBaseDir c) c os ts [])
      as [out res] eqn:E.
    destruct (targetsLoop_shape force _ c os ts [] out res Hlen E)
      as [He Hr].
    assert (Herrs : Forall (wellShaped sourceURL sourceBaseDir ts
                              ([c] ++ filesOf rest)) out).
    { eapply Forall_impl; [|exact He]. intros m Hm. left. exact Hm. }
    destruct res as [[os' tcs]|]; [|exact Herrs].
    destruct (Hr os' tcs eq_refl) as (Hl & added & Ea & Hf).
    simpl in Ea. subst added.
    assert (Hlen' : List.length ts = List.length os') by congruence.
    specialize (IH os' Hlen').
    destruct (sourceLoop force sourceURL sourceBaseDir ts rest os')
      as [out' st]. simpl in *.
    apply Forall_app. split; [exact Herrs|].
    apply Forall_app. split.
    + destruct tcs as [|tc tcs]; simpl; [constructor|].
      constructor; [|constructor].
      right. exists c, (tc :: tcs).
      repeat split; [discriminate | left; reflexivity | exact Hf].
    + eapply Forall_impl; [|exact IH]. intros m.
      apply wellShaped_more. intros c' Hc'. right. exact Hc'.
Qed.

Lemma openTargets_length ts :
  forall os, openTargets ts = Ok os -> List.length ts = List.length os.
Proof.
  induction ts as [|t ts IH]; intros os H; simpl in H.
  - injection H as <-. reflexivity.
  - destruct (getIsAvailable t); [|discriminate].
    destruct (openTargets ts) as [os1|]; [|discriminate].
    injection H as <-. simpl. f_equal. apply IH. reflexivity.
Qed.

Lemma deltaSourceTargets_shape (force : bool) (sourceURL : string)
  (targetURLs : list string) :
  Forall (wellShaped (withSeparator sourceURL) (sourceBaseDirOf sourceURL)
            (map withSeparator targetURLs)
            (filesOf (listingOf (withSeparator sourceURL))))
    (fst (deltaSourceTargets force sourceURL targetURLs)).
Proof.
  unfold deltaSourceTargets, listingOf.
  destruct (openTargets (map withSeparator targetURLs)) as [os|err] eqn:Eo.
  - destruct (url2Client (withSeparator sourceURL)) as [clnt|err].
    + apply sourceLoop_shape. apply openTargets_length. exact Eo.
    + constructor; [left; eexists; reflexivity | constructor].
  - constructor; [left; eexists; reflexivity | constructor].
Qed.

Lemma Base_not_empty (path : string) : FilePath.Base path <> "".
Proof.
  unfold FilePath.Base. destruct path as [|a path]; [discriminate|].
  destruct (rev_string _ ""); discriminate.
Qed.

(** C5.  Every instruction for a source entry [c] lists target references
    built from the suffix of [c].  When the source root does not end with
    the separator, that suffix is the last element of the root
    ([sourceBaseDir]) joined with the path of [c] relative to the root;
    when the root ends with the separator it is that relative path
    unchanged.  The same suffix is the one handed to every availability
    query ([suffixOf]). *)
Theorem deltaSourceTargets_suffix (force : bool) (sourceURL : string)
  (targetURLs : list string) (m : mirrorURLs) (c : Content) :
  In m (fst (deltaSourceTargets force sourceURL targetURLs)) ->
  SourceContent m = Some c ->
  let sep := separatorOf sourceURL in
  (HasSuffix sourceURL sep = false ->
     let suffix :=
       urlJoinPath (FilePath.Base sourceURL)
         (TrimPrefix (pathOf c) (sourceURL ++ sep)%string) in
     suffixOf (withSeparator sourceURL) (sourceBaseDirOf sourceURL) c = suffix
     /\ Forall (fun tc => exists t, In t targetURLs /\
            tc = targetContentOf
                   (NewURL (urlJoinPath (withSeparator t) suffix)))
          (TargetContents m))
  /\ (HasSuffix sourceURL sep = true ->
       let suffix := TrimPrefix (pathOf c) sourceURL in
       suffixOf (withSeparator sourceURL) (sourceBaseDirOf sourceURL) c
       = suffix
       /\ Forall (fun tc => exists t, In t targetURLs /\
              tc = targetContentOf
                     (NewURL (urlJoinPath (withSeparator t) suffix)))
            (TargetContents m)).
Proof.
  intros Hin Hsrc sep.
  pose proof (deltaSourceTargets_shape force sourceURL targetURLs) as Hsh.
  rewrite Forall_forall in Hsh. specialize (Hsh m Hin).
  destruct Hsh as [[e ->] | (c' & tcs & -> & Hne & Hfile & Hf)];
    [discriminate|].
  simpl in Hsrc. injection Hsrc as ->. simpl.
  assert (Hts : Forall (fun tc => exists t, In t targetURLs /\
                  tc = targetContentOf
                         (NewURL (urlJoinPath (withSeparator t)
                            (suffixOf (withSeparator sourceURL)
                               (sourceBaseDirOf sourceURL) c)))) tcs).
  { eapply Forall_impl; [|exact Hf].
    intros tc (t & Ht & ->). apply in_map_iff in Ht.
    destruct Ht as (t0 & <- & Ht0). exists t0. auto. }
  split; intros Hs.
  - assert (E : suffixOf (withSeparator sourceURL)
                  (sourceBaseDirOf sourceURL) c
                = urlJoinPath (FilePath.Base sourceURL)
                    (TrimPrefix (pathOf c) (sourceURL ++ sep)%string)).
    { unfold suffixOf, withSeparator, sourceBaseDirOf. fold sep.
      rewrite Hs. simpl.
      destruct (String.eqb_spec (FilePath.Base sourceURL) "") as [E|E];
        [destruct (Base_not_empty _ E) | reflexivity]. }
    rewrite <- E. auto.
  - assert (E : suffixOf (withSeparator sourceURL)
                  (sourceBaseDirOf sourceURL) c
                = TrimPrefix (pathOf c) sourceURL).
    { unfold suffixOf, withSeparator, sourceBaseDirOf. fold sep.
      rewrite Hs. reflexivity. }
    rewrite <- E. auto.
Qed.

(** *** Size mismatch and the force flag *)

(** The queries the engine puts to every target, in order. *)
Definition queriesOf (sourceURL sourceBaseDir : string) (files : list Content)
  : list (string * Z * Z) :=
  map (fun c => (suffixOf sourceURL sourceBaseDir c, Type_ c, Size c)) files.

Lemma verdict_mismatch (force : bool) (srcType srcSize : Z) (e : string) tgt :
  FileMode.IsRegular srcType = true ->
  FileMode.IsRegular (Type_ tgt) = true ->
  Size tgt <> srcSize ->
  verdict force srcType srcSize e (Some tgt)
  = if force then Returns (false, None)
    else Returns (false, Some (errOverWriteNotAllowed e)).
Proof.
  intros Hs Ht Hz. unfold verdict. rewrite Hs, Ht. simpl.
  destruct (Z.eqb_spec srcSize (Size tgt)) as [E|E]; [congruence|].
  destruct force; reflexivity.
Qed.

Lemma mergeable_fresh (force : bool) sourceURL sourceBaseDir files t :
  mergeable sourceURL sourceBaseDir files t = true ->
  exists o, getIsAvailable t = Ok o
    /\ askAll force o (queriesOf sourceURL sourceBaseDir files)
       = map (answerOf force t (listingOf t))
           (queriesOf sourceURL sourceBaseDir files).
Proof.
  intros Hm. unfold mergeable in Hm.
  repeat (apply andb_true_iff in Hm as [Hm ?]).
  unfold listingOf in *.
  destruct (url2Client t) as [clnt|] eqn:Ec; [|discriminate].
  apply (askAll_fresh force t clnt); auto.
  - unfold queriesOf. rewrite forallb_forall. intros q Hq.
    apply in_map_iff in Hq. destruct Hq as (c & <- & Hc).
    match goal with
    | Hk : forallb _ (map _ files) = true |- _ =>
        rewrite forallb_forall in Hk; apply Hk
    end.
    unfold expectedOf. simpl.
    apply (in_map (fun c => urlJoinPath t (suffixOf sourceURL sourceBaseDir c))).
    exact Hc.
  - unfold queriesOf. rewrite map_map. unfold expectedOf. simpl. assumption.
Qed.

Lemma in_planOf_instruction force suffix c ts m c' :
  In m (planOf force suffix c ts) -> SourceContent m = Some c' ->
  c' = c /\ m = mkMirrorURLs (Some c) (missingOf force suffix c ts) None
  /\ missingOf force suffix c ts <> [].
Proof.
  unfold planOf. intros Hin Hs. apply in_app_or in Hin.
  destruct Hin as [Hin | Hin].
  - unfold errorsOf in Hin. apply in_flat_map in Hin.
    destruct Hin as (t & _ & Hin).
    destruct (targetVerdict force suffix c t) as [[b [err|]]|];
      simpl in Hin; try contradiction.
    destruct Hin as [<- | []]. discriminate.
  - destruct (missingOf force suffix c ts) as [|tc tcs]; [contradiction|].
    destruct Hin as [<- | []]. simpl in Hs. injection Hs as <-.
    repeat split. discriminate.
Qed.

(** C3.  A mirror run meets a source entry [c] that is a regular file,
    and the target root [t] lists at the expected path a regular file of
    another size.  Without force the closure of [t] answers that query with
    the overwrite-not-allowed error, the engine emits that error, and no
    instruction for [c] lists the target path; with force the closure
    answers "not available" without error and an instruction for [c] lists
    the target path. *)
Theorem deltaSourceTargets_size_mismatch (sourceURL : string)
  (targetURLs : list string) clnt (before after : list Content)
  (c : Content) (t : string) (tgt : Content) :
  let src := withSeparator sourceURL in
  let base := sourceBaseDirOf sourceURL in
  let ts := map withSeparator targetURLs in
  let files := filesOf (List clnt true false) in
  let p := urlJoinPath t (suffixOf src base c) in
  url2Client src = Ok clnt ->
  entriesOnly (List clnt true false) = true ->
  forallb (mergeable src base files) ts = true ->
  files = before ++ c :: after ->
  In t ts ->
  FileMode.IsRegular (Type_ c) = true ->
  lookupPath p (listingOf t) = Some tgt ->
  FileMode.IsRegular (Type_ tgt) = true ->
  Size tgt <> Size c ->
  (forall t', In t' ts ->
     NewURL (urlJoinPath t' (suffixOf src base c)) = NewURL p -> t' = t) ->
  ((exists o, getIsAvailable t = Ok o
      /\ nth (List.length before) (askAll false o (queriesOf src base files))
           Panics
         = Returns (false, Some (errOverWriteNotAllowed p)))
   /\ In (errorURLs (errOverWriteNotAllowed p))
        (fst (deltaSourceTargets false sourceURL targetURLs))
   /\ (forall m, In m (fst (deltaSourceTargets false sourceURL targetURLs)) ->
         SourceContent m = Some c ->
         ~ In (targetContentOf (NewURL p)) (TargetContents m)))
  /\ ((exists o, getIsAvailable t = Ok o
         /\ nth (List.length before)
              (askAll true o (queriesOf src base files)) Panics
            = Returns (false, None))
      /\ (exists m, In m (fst (deltaSourceTargets true sourceURL targetURLs))
            /\ SourceContent m = Some c /\ Error m = None
            /\ In (targetContentOf (NewURL p)) (TargetContents m))).
Proof.
  intros src base ts files p Hc He Hm Hfiles Ht Hreg Hl Htreg Hsz Hdistinct.
  assert (Hmt : mergeable src base files t = true).
  { rewrite forallb_forall in Hm. apply Hm. exact Ht. }
  assert (Hnth : forall force,
            nth (List.length before)
              (map (answerOf force t (listingOf t)) (queriesOf src base files))
              Panics
            = if force then Returns (false, None)
              else Returns (false, Some (errOverWriteNotAllowed p))).
  { intros force. unfold queriesOf. rewrite Hfiles, !map_app. simpl.
    rewrite <- (length_map (fun c0 => (suffixOf src base c0, Type_ c0, Size c0))
                  before).
    rewrite <- (length_map (answerOf force t (listingOf t))).
    rewrite nth_middle. unfold answerOf, expectedOf. simpl. fold p.
    rewrite Hl. apply verdict_mismatch; assumption. }
  assert (Hv : forall force,
            targetVerdict force (suffixOf src base c) c t
            = if force then Returns (false, None)
              else Returns (false, Some (errOverWriteNotAllowed p))).
  { intros force. unfold targetVerdict. fold p. rewrite Hl.
    apply verdict_mismatch; assumption. }
  assert (Hcin : In c files) by (rewrite Hfiles; apply in_elt).
  split; [split; [|split] | split].
  - destruct (mergeable_fresh false src base files t Hmt) as (o & Ho & Ha).
    exists o. split; [exact Ho|]. rewrite Ha. apply (Hnth false).
  - unfold src, base, ts, files in *.
    rewrite (deltaSourceTargets_plan false sourceURL targetURLs clnt Hc He Hm).
    simpl. apply in_flat_map. exists c. split; [exact Hcin|].
    unfold planOf. apply in_or_app. left. unfold errorsOf.
    apply in_flat_map. exists t. split; [exact Ht|].
    rewrite (Hv false). left. reflexivity.
  - unfold src, base, ts, files in *.
    rewrite (deltaSourceTargets_plan false sourceURL targetURLs clnt Hc He Hm).
    simpl. intros m Hin Hs Habs. apply in_flat_map in Hin.
    destruct Hin as (c0 & Hc0 & Hin).
    destruct (in_planOf_instruction _ _ _ _ _ _ Hin Hs) as (-> & -> & _).
    simpl in Habs. unfold missingOf in Habs. apply in_flat_map in Habs.
    destruct Habs as (t' & Ht' & Hin').
    destruct (targetVerdict false _ c0 t') as [[[|] [err|]]|] eqn:Ev;
      simpl in Hin'; try contradiction.
    destruct Hin' as [E | []]. injection E as E.
    rewrite (Hdistinct t' Ht' E) in Ev. rewrite (Hv false) in Ev.
    discriminate.
  - destruct (mergeable_fresh true src base files t Hmt) as (o & Ho & Ha).
    exists o. split; [exact Ho|]. rewrite Ha. apply (Hnth true).
  - unfold src, base, ts, files in *.
    rewrite (deltaSourceTargets_plan true sourceURL targetURLs clnt Hc He Hm).
    simpl.
    assert (Hmiss : In (targetContentOf (NewURL p))
                      (missingOf true (suffixOf (withSeparator sourceURL)
                                         (sourceBaseDirOf sourceURL) c) c
                         (map withSeparator targetURLs))).
    { unfold missingOf. apply in_flat_map. exists t. split; [exact Ht|].
      rewrite (Hv true). left. reflexivity. }
    eexists (mkMirrorURLs (Some c) _ None). split; [|repeat split; exact Hmiss].
    apply in_flat_map. exists c. split; [exact Hcin|].
    unfold planOf. apply in_or_app. right.
    destruct (missingOf true _ c _); [contradiction | left; reflexivity].
Qed.

(** *** Suppression and idempotence *)

(** The target root [t] lists at the expected path an entry of the type
    and the size of [c]. *)
Definition heldBy (suffix : string) (c : Content) (t : string) : bool :=
  match lookupPath (urlJoinPath t suffix) (listingOf t) with
  | Some tgt => (Type_ tgt =? Type_ c) && (Size tgt =? Size c)
  | None => false
  end.

Lemma flat_map_nil {A C : Type} (f : A -> list C) (l : list A) :
  (forall x, In x l -> f x = []) -> flat_map f l = [].
Proof.
  induction l as [|a l IH]; intros H; simpl; [reflexivity|].
  rewrite (H a (or_introl eq_refl)). apply IH.
  intros x Hx. apply H. right. exact Hx.
Qed.

Lemma planOf_held (force : bool) (suffix : string) (c : Content)
  (ts : list string) :
  (forall t, In t ts -> heldBy suffix c t = true) ->
  planOf force suffix c ts = [].
Proof.
  intros H.
  assert (Hv : forall t, In t ts ->
                 targetVerdict force suffix c t = Returns (true, None)).
  { intros t Ht. specialize (H t Ht). unfold heldBy in H.
    unfold targetVerdict, verdict.
    destruct (lookupPath _ _) as [tgt|]; [|discriminate].
    apply andb_true_iff in H. destruct H as [Hty Hsz].
    apply Z.eqb_eq in Hty, Hsz. rewrite Hty, Hsz, Z.eqb_refl.
    destruct (FileMode.IsRegular (Type_ c)); reflexivity. }
  unfold planOf, errorsOf, missingOf.
  rewrite !flat_map_nil; [reflexivity | |];
    intros t Ht; rewrite (Hv t Ht); reflexivity.
Qed.

(** C9.  An instruction without error always lists at least one target.
    Under the merge conditions a source entry that every target holds
    yields no instruction, and a run in which every target holds every
    source entry emits nothing and closes the channel. *)
Theorem deltaSourceTargets_suppresses (force : bool) (sourceURL : string)
  (targetURLs : list string) :
  (forall m, In m (fst (deltaSourceTargets force sourceURL targetURLs)) ->
     Error m = None -> TargetContents m <> [])
  /\ (forall clnt,
        let src := withSeparator sourceURL in
        let base := sourceBaseDirOf sourceURL in
        let ts := map withSeparator targetURLs in
        let files := filesOf (List clnt true false) in
        url2Client src = Ok clnt ->
        entriesOnly (List clnt true false) = true ->
        forallb (mergeable src base files) ts = true ->
        (forall c, In c files ->
           forallb (heldBy (suffixOf src base c) c) ts = true ->
           forall m, In m (fst (deltaSourceTargets force sourceURL targetURLs)) ->
             SourceContent m <> Some c)
        /\ (forallb (fun c => forallb (heldBy (suffixOf src base c) c) ts)
              files = true ->
            deltaSourceTargets force sourceURL targetURLs = ([], Closed))).
Proof.
  split.
  - intros m Hin Herr.
    pose proof (deltaSourceTargets_shape force sourceURL targetURLs) as Hsh.
    rewrite Forall_forall in Hsh.
    destruct (Hsh m Hin) as [[e ->] | (c & tcs & -> & Hne & _)];
      [discriminate | exact Hne].
  - intros clnt src base ts files Hc He Hm.
    unfold src, base, ts, files in *.
    rewrite (deltaSourceTargets_plan force sourceURL targetURLs clnt Hc He Hm).
    simpl. split.
    + intros c Hcin Hheld m Hin Hs. apply in_flat_map in Hin.
      destruct Hin as (c0 & Hc0 & Hin).
      destruct (in_planOf_instruction _ _ _ _ _ _ Hin Hs) as (-> & _ & Hne).
      rewrite planOf_held in Hin; [contradiction|].
      rewrite forallb_forall in Hheld. exact Hheld.
    + intros Hall. f_equal. apply flat_map_nil. intros c Hcin.
      apply planOf_held. rewrite forallb_forall in Hall.
      specialize (Hall c Hcin). rewrite forallb_forall in Hall. exact Hall.
Qed.

(** C10.  [isEmpty] dereferences the nil [SourceContent] of a pure error
    instruction: the first condition fails on the error, and the second
    reads [m.SourceContent.Size]. *)
Theorem isEmpty_error_instruction_panics :
  (forall e, isEmpty (errorURLs e) = Panics)
  /\ (forall tc tcs, isEmpty (mkMirrorURLs None (tc :: tcs) None) = Panics).
Proof. split; reflexivity. Qed.

End WithBackend.

End EngineFacts.

(** ** A sample mirror backend *)

Module SampleMirror.
Import GoStrings Client Sample.

(** The source root [s/] holds [a.txt] (5 bytes) and [sub/b.txt]
    (3 bytes).  The target [empty/] holds nothing, [full/] holds the same
    files, [stale/] holds [a.txt] with 4 bytes.  The source [a/b/c] holds
    [x.txt]; [d/e/] is empty.  Any other root has no client. *)
Definition sourceListing : list ContentOnChannel :=
  [ entry (regularFile "s/a.txt" 5);
    entry (directory "s/sub");
    entry (regularFile "s/sub/b.txt" 3) ].

Definition fullListing : list ContentOnChannel :=
  [ entry (regularFile "full/a.txt" 5);
    entry (directory "full/sub");
    entry (regularFile "full/sub/b.txt" 3) ].

Definition staleListing : list ContentOnChannel :=
  [ entry (regularFile "stale/a.txt" 4);
    entry (directory "stale/sub");
    entry (regularFile "stale/sub/b.txt" 3) ].

Definition clientOf (u : string) : result Mirror.ClientHandle :=
  let serve l := Ok (Mirror.mkClient (fun _ _ => l)) in
  if String.eqb u "s/" then serve sourceListing
  else if String.eqb u "empty/" then serve []
  else if String.eqb u "full/" then serve fullListing
  else if String.eqb u "stale/" then serve staleListing
  else if String.eqb u "a/b/c/" then serve [entry (regularFile "a/b/c/x.txt" 1)]
  else if String.eqb u "d/e/" then serve []
  else Failed (errBackend "no such bucket").

(** Modelled from the spec: [client.NewURL] keeps the string as the path
    of a URL with the slash separator, [URL.String] gives it back. *)
#[local] Instance mirrorBackend : Mirror.Backend := {|
  Mirror.url2Client := clientOf;
  Mirror.urlJoinPath := joinSlash;
  Mirror.NewURL := fun u => mkURL "" "" u "/"%char;
  Mirror.URLString := Path
|}.

End SampleMirror.

(** ** The theorems on the sample backends *)

Module Runs.
Import GoStrings Client Sample SampleMirror StringOrder.
Import OracleFacts EngineFacts CpFacts.

#[local] Existing Instance cpBackend.
#[local] Existing Instance mirrorBackend.

(** The target paths a run plans, instruction by instruction. *)
Definition plannedPaths (run : list Mirror.mirrorURLs * status)
  : list (list string) :=
  map (fun m => map (fun tc => Path (ContentURL tc)) (Mirror.TargetContents m))
      (fst run).

(** The scenario of the spec: two files against an empty target, then
    against a target that holds them. *)
Example mirror_into_empty :
  plannedPaths (Mirror.deltaSourceTargets false "s/" ["empty"])
  = [["empty/a.txt"]; ["empty/sub/b.txt"]].
Proof. reflexivity. Qed.

Example mirror_into_full :
  Mirror.deltaSourceTargets false "s/" ["full"] = ([], Closed).
Proof. reflexivity. Qed.

(** With one target that misses the files and one that holds them, the
    instructions list the first only. *)
Example mirror_two_targets :
  plannedPaths (Mirror.deltaSourceTargets false "s/" ["empty"; "full"])
  = [["empty/a.txt"]; ["empty/sub/b.txt"]].
Proof. reflexivity. Qed.

(** A source root without the trailing separator keeps its last element. *)
Example mirror_keeps_base_dir :
  plannedPaths (Mirror.deltaSourceTargets false "a/b/c" ["d/e"])
  = [["d/e/c/x.txt"]].
Proof. reflexivity. Qed.

(** A suffix equal to the root meets the zero value of [content]. *)
Example isAvailable_at_root_panics :
  fst (Mirror.isAvailable false
         (Mirror.mkOracle "full/" fullListing "full/" false false zeroEvent)
         "" 0 0)
  = Mirror.Panics.
Proof. reflexivity. Qed.

(** The four shapes, each on the sample file system. *)
Lemma guessCopyURLType_shapes_witness :
  Cp.guessCopyURLType (Slice ["dir..."]) "out/" = Cp.copyURLsTypeC
  /\ Cp.guessCopyURLType (Slice ["f1"]) "out/" = Cp.copyURLsTypeB
  /\ Cp.guessCopyURLType (Slice ["f1"]) "f2" = Cp.copyURLsTypeA
  /\ Cp.guessCopyURLType (Slice ["f1"; "f2"]) "out/" = Cp.copyURLsTypeD.
Proof.
  assert (Hout : TrimSpace "out/" <> "") by (vm_compute; discriminate).
  assert (Hf2 : TrimSpace "f2" <> "") by (vm_compute; discriminate).
  split; [|split; [|split]].
  - apply (proj1 (guessCopyURLType_shapes (Slice ["dir..."]) "out/"
                    ltac:(discriminate) Hout) "dir...");
      reflexivity.
  - apply (proj1 (proj2 (guessCopyURLType_shapes (Slice ["f1"]) "out/"
                           ltac:(discriminate) Hout)) "f1");
      reflexivity.
  - apply (proj1 (proj2 (proj2 (guessCopyURLType_shapes (Slice ["f1"]) "f2"
                                  ltac:(discriminate) Hf2))) "f1");
      reflexivity.
  - apply (proj2 (proj2 (proj2 (guessCopyURLType_shapes
                                  (Slice ["f1"; "f2"]) "out/"
                                  ltac:(discriminate) Hout)))).
    simpl. lia.
Defined.

(** Type A on the regular file [f1], and on a path that does not exist. *)
Lemma prepareCopyURLsTypeA_witness :
  (exists src tgt,
     Cp.prepareCopyURLsTypeA "f1" "f2"
     = [Cp.mkCopyURLs (Some src) (Some tgt) None]
     /\ Name src = "f1" /\ Name tgt = "f2"
     /\ Type_ src = 0 /\ Size src = 7)
  /\ Cp.prepareCopyURLsTypeA "nowhere" "f2"
     = [Cp.errorURLs (errBackend "no such file")].
Proof.
  split.
  - apply (proj1 (proj2 (proj2 (prepareCopyURLsTypeA_one_instruction
                                  "f1" "f2")))
             (Cp.mkClient (fun _ => [])) (regularFile "f1" 7));
      reflexivity.
  - apply (proj1 (prepareCopyURLsTypeA_one_instruction "nowhere" "f2")).
    reflexivity.
Defined.

(** Type B copies [f1] into the directory [out] as [out/f1]. *)
Lemma prepareCopyURLsTypeB_witness :
  Cp.prepareCopyURLsTypeB "f1" "out" = Cp.prepareCopyURLsTypeA "f1" "out/f1"
  /\ Cp.prepareCopyURLsTypeB "f1" "out"
     = [Cp.mkCopyURLs (Some (regularFile "f1" 7))
          (Some (Cp.namedContent "out/f1")) None].
Proof.
  exact (prepareCopyURLsTypeB_joins_basename "f1" "out"
           (Cp.mkClient (fun _ => [])) (regularFile "f1" 7)
           (mkURL "" "" "f1" "/"%char) (mkURL "" "" "out" "/"%char)
           eq_refl eq_refl eq_refl eq_refl).
Defined.

(** Type C over [dir...]: the listing error after [a.txt] is one error
    instruction, and [sub/b.txt] is still planned after it. *)
Lemma prepareCopyURLsTypeC_witness :
  exists yielded,
    fst (Cp.prepareCopyURLsTypeC "dir..." "out/")
    = fst (Cp.typeC_loop "dir" "out/" [entry (regularFile "dir/a.txt" 5)])
      ++ yielded
      ++ fst (Cp.typeC_loop "dir" "out/"
                [entry (directory "dir/sub");
                 entry (regularFile "dir/sub/b.txt" 3)])
    /\ yielded = [Cp.errorURLs (errBackend "permission denied")].
Proof.
  destruct (prepareCopyURLsTypeC_per_entry "dir..." "out/"
              (Cp.mkClient (fun _ => dirListing)) (directory "dir")
              [entry (regularFile "dir/a.txt" 5)]
              (failure "permission denied")
              [entry (directory "dir/sub");
               entry (regularFile "dir/sub/b.txt" 3)])
    as (yielded & Hout & Herr & _).
  - reflexivity.
  - reflexivity.
  - reflexivity.
  - reflexivity.
  - constructor; [right; discriminate | constructor].
  - left. discriminate.
  - exists yielded. split; [exact Hout|].
    apply (Herr (errBackend "permission denied")). reflexivity.
Defined.

(** Three ordered queries about regular files against [stale/]. *)
Lemma isAvailable_merge_join_witness :
  exists o, Mirror.getIsAvailable "stale/" = Ok o
    /\ Forall2 (agreesWith "stale/" staleListing)
         [("a.txt", 0, 4); ("sub/b.txt", 0, 3); ("z.txt", 0, 1)]
         (Mirror.askAll false o
            [("a.txt", 0, 4); ("sub/b.txt", 0, 3); ("z.txt", 0, 1)]).
Proof.
  apply (isAvailable_merge_join false "stale/"
           (Mirror.mkClient (fun _ _ => staleListing))
           [("a.txt", 0, 4); ("sub/b.txt", 0, 3); ("z.txt", 0, 1)]);
    reflexivity.
Defined.

(** C1 as stated fails for a source that is not a regular file: asked
    about a symbolic link of 5 bytes, the closure of [stale/] answers
    "available" at [stale/a.txt], although the listing, which is in
    order, has no regular file of 5 bytes at that path. *)
Lemma isAvailable_symlink_counterexample :
  nondecreasing (pathsOf staleListing) = true
  /\ exists o, Mirror.getIsAvailable "stale/" = Ok o
       /\ fst (Mirror.isAvailable false o "a.txt" FileMode.ModeSymlink 5)
          = Mirror.Returns (true, None)
       /\ ~ (exists ev c,
               In ev (Mirror.List (Mirror.mkClient (fun _ _ => staleListing))
                        true false)
               /\ EvContent ev = Some c
               /\ pathOf c = Mirror.urlJoinPath "stale/" "a.txt"
               /\ FileMode.IsRegular (Type_ c) = true
               /\ Size c = 5).
Proof.
  split; [reflexivity|].
  eexists. split; [reflexivity|]. split; [reflexivity|].
  intros (ev & c & Hin & Hev & Hp & _ & Hsz).
  simpl in Hin.
  destruct Hin as [<- | [<- | [<- | []]]]; simpl in Hev;
    injection Hev as <-; simpl in Hsz; try discriminate Hsz;
    vm_compute in Hp; discriminate Hp.
Qed.

(** [a/b/c] mirrored into [d/e] plans [d/e/c/x.txt]. *)
Lemma deltaSourceTargets_suffix_witness :
  Mirror.suffixOf "a/b/c/" "c" (regularFile "a/b/c/x.txt" 1) = "c/x.txt"
  /\ Forall (fun tc => exists t, In t ["d/e"] /\
        tc = Mirror.targetContentOf
               (Mirror.NewURL
                  (Mirror.urlJoinPath (Mirror.withSeparator t) "c/x.txt")))
       [Mirror.targetContentOf (mkURL "" "" "d/e/c/x.txt" "/"%char)].
Proof.
  exact (proj1 (deltaSourceTargets_suffix false "a/b/c" ["d/e"]
                  (Mirror.mkMirrorURLs (Some (regularFile "a/b/c/x.txt" 1))
                     [Mirror.targetContentOf
                        (mkURL "" "" "d/e/c/x.txt" "/"%char)] None)
                  (regularFile "a/b/c/x.txt" 1)
                  (or_introl eq_refl) eq_refl) eq_refl).
Defined.

(** [s/] against [empty], [full/] and [stale]: [a.txt] has another size in
    [stale/]. *)
Lemma deltaSourceTargets_size_mismatch_witness :
  ((exists o, Mirror.getIsAvailable "stale/" = Ok o
      /\ nth 0 (Mirror.askAll false o [("a.txt", 0, 5); ("sub/b.txt", 0, 3)])
           Mirror.Panics
         = Mirror.Returns (false, Some (errOverWriteNotAllowed "stale/a.txt")))
   /\ In (Mirror.errorURLs (errOverWriteNotAllowed "stale/a.txt"))
        (fst (Mirror.deltaSourceTargets false "s/" ["empty"; "full/"; "stale"]))
   /\ (forall m,
         In m (fst (Mirror.deltaSourceTargets false "s/"
                      ["empty"; "full/"; "stale"])) ->
         Mirror.SourceContent m = Some (regularFile "s/a.txt" 5) ->
         ~ In (Mirror.targetContentOf (mkURL "" "" "stale/a.txt" "/"%char))
              (Mirror.TargetContents m)))
  /\ ((exists o, Mirror.getIsAvailable "stale/" = Ok o
         /\ nth 0 (Mirror.askAll true o [("a.txt", 0, 5); ("sub/b.txt", 0, 3)])
              Mirror.Panics
            = Mirror.Returns (false, None))
      /\ (exists m,
            In m (fst (Mirror.deltaSourceTargets true "s/"
                         ["empty"; "full/"; "stale"]))
            /\ Mirror.SourceContent m = Some (regularFile "s/a.txt" 5)
            /\ Mirror.Error m = None
            /\ In (Mirror.targetContentOf (mkURL "" "" "stale/a.txt" "/"%char))
                 (Mirror.TargetContents m))).
Proof.
  refine (deltaSourceTargets_size_mismatch "s/" ["empty"; "full/"; "stale"]
            (Mirror.mkClient (fun _ _ => sourceListing))
            [] [regularFile "s/sub/b.txt" 3] (regularFile "s/a.txt" 5)
            "stale/" (regularFile "stale/a.txt" 4)
            eq_refl eq_refl eq_refl eq_refl
            (or_intror (or_intror (or_introl eq_refl)))
            eq_refl eq_refl eq_refl _ _).
  - simpl. lia.
  - intros t' [<- | [<- | [<- | []]]] E;
      try reflexivity; vm_compute in E; discriminate E.
Defined.

(** Every instruction of the run against [empty] lists a target; the run
    against [full], which holds both files, emits nothing. *)
Lemma deltaSourceTargets_suppresses_witness :
  (forall m, In m (fst (Mirror.deltaSourceTargets false "s/" ["empty"])) ->
     Mirror.Error m = None -> Mirror.TargetContents m <> [])
  /\ Mirror.deltaSourceTargets false "s/" ["full"] = ([], Closed).
Proof.
  split.
  - apply (proj1 (deltaSourceTargets_suppresses false "s/" ["empty"])).
  - pose proof (proj2 (deltaSourceTargets_suppresses false "s/" ["full"])
                  (Mirror.mkClient (fun _ _ => sourceListing))) as Hrun.
    simpl in Hrun.
    exact (proj2 (Hrun eq_refl eq_refl eq_refl) eq_refl).
Defined.

End Runs.

(** ** More of [cp-url.go]: what every plan keeps *)

Module CpPlans.
Import GoStrings Client Cp CpFacts.

Section WithBackend.
Context {B : Backend}.

(** An instruction is either an error alone, or a regular source file
    with its target and no error. *)
Definition soundURLs (m : copyURLs) : Prop :=
  (exists e, m = errorURLs e)
  \/ (exists s t, m = mkCopyURLs (Some s) (Some t) None
                  /\ FileMode.IsRegular (Type_ s) = true).

(** The events of a listing that make type C emit: error events and
    regular files. *)
Definition emits (ev : ContentOnChannel) : bool :=
  match EvErr ev with
  | Some _ => true
  | None => match EvContent ev with
            | Some c => FileMode.IsRegular (Type_ c)
            | None => false
            end
  end.

Lemma TrimSpace_of_empty (s : string) : s = "" -> TrimSpace s = "".
Proof. intros ->. reflexivity. Qed.

(** The two ways to the answer Invalid. *)
Lemma guess_invalid_cases (sourceURLs : slice) (targetURL : string) :
  guessCopyURLType sourceURLs targetURL = copyURLsTypeInvalid
  <-> TrimSpace targetURL = "" \/ isNil sourceURLs = true.
Proof.
  unfold guessCopyURLType.
  destruct (String.eqb_spec (TrimSpace targetURL) "") as [Et|Et]; simpl.
  - split; auto.
  - destruct (String.eqb_spec targetURL "") as [E0|E0].
    + destruct (Et (TrimSpace_of_empty _ E0)).
    + destruct (isNil sourceURLs); [split; auto|].
      split; [| intros [H|H]; [contradiction | discriminate]].
      destruct (len sourceURLs =? 1); [|discriminate].
      destruct (isURLRecursive _); [discriminate|].
      destruct (isTargetURLDir _); discriminate.
Qed.


Lemma prepareCopyURLsTypeA_sound sourceURL targetURL :
  Forall soundURLs (prepareCopyURLsTypeA sourceURL targetURL).
Proof.
  unfold prepareCopyURLsTypeA.
  destruct (url2Stat sourceURL) as [[clnt c]|err].
  - destruct (FileMode.IsRegular (Type_ c)) eqn:Er; simpl.
    + constructor; [|constructor].
      right. exists (withName c sourceURL), (namedContent targetURL).
      split; [reflexivity | exact Er].
    + constructor; [left; eexists; reflexivity | constructor].
  - constructor; [left; eexists; reflexivity | constructor].
Qed.

Lemma prepareCopyURLsTypeB_sound sourceURL targetURL :
  Forall soundURLs (prepareCopyURLsTypeB sourceURL targetURL).
Proof.
  unfold prepareCopyURLsTypeB.
  destruct (url2Stat sourceURL) as [[clnt c]|err];
    [| constructor; [left; eexists; reflexivity | constructor]].
  destruct (negb _);
    [constructor; [left; eexists; reflexivity | constructor]|].
  destruct (Parse sourceURL);
    [| constructor; [left; eexists; reflexivity | constructor]].
  destruct (Parse targetURL);
    [| constructor; [left; eexists; reflexivity | constructor]].
  apply prepareCopyURLsTypeA_sound.
Qed.

Lemma typeC_entry_sound sourceURL targetURL ev :
  Forall soundURLs (fst (typeC_entry sourceURL targetURL ev)).
Proof.
  unfold typeC_entry.
  destruct (EvErr ev);
    [constructor; [left; eexists; reflexivity | constructor]|].
  destruct (EvContent ev) as [c|]; [|constructor].
  destruct (negb _); [constructor|].
  destruct (Parse sourceURL);
    [| constructor; [left; eexists; reflexivity | constructor]].
  destruct (Parse targetURL);
    [| constructor; [left; eexists; reflexivity | constructor]].
  destruct (Parse _);
    [| constructor; [left; eexists; reflexivity | constructor]].
  apply prepareCopyURLsTypeA_sound.
Qed.

Lemma andThen_Forall {A : Type} (P : A -> Prop) (a k : list A * status) :
  Forall P (fst a) -> Forall P (fst k) -> Forall P (fst (andThen a k)).
Proof.
  destruct a as [out [|]]; simpl; intros Ha Hk; [|exact Ha].
  apply Forall_app. split; assumption.
Qed.

Lemma typeC_loop_sound sourceURL targetURL events :
  Forall soundURLs (fst (typeC_loop sourceURL targetURL events)).
Proof.
  induction events as [|ev rest IH]; simpl; [constructor|].
  apply andThen_Forall; [apply typeC_entry_sound | exact IH].
Qed.

Lemma prepareCopyURLsTypeC_sound sourceURL targetURL :
  Forall soundURLs (fst (prepareCopyURLsTypeC sourceURL targetURL)).
Proof.
  unfold prepareCopyURLsTypeC.
  destruct (negb (isURLRecursive sourceURL));
    [constructor; [left; eexists; reflexivity | constructor]|].
  destruct (url2Stat _) as [[clnt c]|err];
    [| constructor; [left; eexists; reflexivity | constructor]].
  destruct (negb _);
    [constructor; [left; eexists; reflexivity | constructor]|].
  apply typeC_loop_sound.
Qed.

Lemma typeD_loop_sound sourceURLs targetURL :
  Forall soundURLs (fst (typeD_loop sourceURLs targetURL)).
Proof.
  induction sourceURLs as [|s rest IH]; simpl; [constructor|].
  apply andThen_Forall; [| exact IH].
  destruct (isURLRecursive s);
    [apply prepareCopyURLsTypeC_sound | apply prepareCopyURLsTypeB_sound].
Qed.

(** Whatever the arguments and the backend, no instruction of a plan
    carries an error together with contents, a source without target, or
    a source that is not a regular file. *)
Theorem prepareCopyURLs_sound (sourceURLs : slice) (targetURL : string) :
  Forall soundURLs (fst (prepareCopyURLs sourceURLs targetURL)).
Proof.
  unfold prepareCopyURLs.
  destruct (guessCopyURLType sourceURLs targetURL); simpl.
  - constructor; [left; eexists; reflexivity | constructor].
  - apply prepareCopyURLsTypeA_sound.
  - apply prepareCopyURLsTypeB_sound.
  - apply prepareCopyURLsTypeC_sound.
  - unfold prepareCopyURLsTypeD. destruct (isNil sourceURLs).
    + constructor; [left; eexists; reflexivity | constructor].
    + apply typeD_loop_sound.
Qed.

(** Type B yields one instruction, and the errors of type A. *)
Lemma typeB_single (sourceURL targetURL : string) :
  List.length (prepareCopyURLsTypeB sourceURL targetURL) = 1%nat
  /\ (forall err, url2Stat sourceURL = Failed err ->
        forall target', prepareCopyURLsTypeB sourceURL targetURL
                        = prepareCopyURLsTypeA sourceURL target')
  /\ (forall clnt c, url2Stat sourceURL = Ok (clnt, c) ->
        FileMode.IsRegular (Type_ c) = false ->
        forall target', prepareCopyURLsTypeB sourceURL targetURL
                        = prepareCopyURLsTypeA sourceURL target').
Proof.
  split; [|split].
  - unfold prepareCopyURLsTypeB.
    destruct (url2Stat sourceURL) as [[clnt c]|err] eqn:Es; [|reflexivity].
    destruct (negb _) eqn:Er; [reflexivity|].
    destruct (Parse sourceURL); [|reflexivity].
    destruct (Parse targetURL); [|reflexivity].
    unfold prepareCopyURLsTypeA. rewrite Es, Er. reflexivity.
  - intros err Hs target'.
    unfold prepareCopyURLsTypeB, prepareCopyURLsTypeA. rewrite Hs.
    reflexivity.
  - intros clnt c Hs Hr target'.
    unfold prepareCopyURLsTypeB, prepareCopyURLsTypeA. rewrite Hs, Hr.
    reflexivity.
Qed.

(** Type B, like type A, always yields one instruction; when the source
    cannot be stat'ed or is not a regular file it is the error type A
    yields, whatever the target. *)
Theorem prepareCopyURLsTypeB_one_instruction (sourceURL targetURL : string) :
  List.length (prepareCopyURLsTypeB sourceURL targetURL) = 1%nat
  /\ (forall err, url2Stat sourceURL = Failed err ->
        forall target', prepareCopyURLsTypeB sourceURL targetURL
                        = prepareCopyURLsTypeA sourceURL target')
  /\ (forall clnt c, url2Stat sourceURL = Ok (clnt, c) ->
        FileMode.IsRegular (Type_ c) = false ->
        forall target', prepareCopyURLsTypeB sourceURL targetURL
                        = prepareCopyURLsTypeA sourceURL target').
Proof. apply typeB_single. Qed.

Lemma typeC_entry_count sourceURL targetURL ev :
  wellFormed ev ->
  List.length (fst (typeC_entry sourceURL targetURL ev))
  = if emits ev then 1%nat else 0%nat.
Proof.
  intros W. unfold emits.
  destruct (EvErr ev) as [err|] eqn:Ee.
  - unfold typeC_entry. rewrite Ee. reflexivity.
  - destruct (EvContent ev) as [c|] eqn:Ec;
      [| destruct W as [W|W]; congruence].
    destruct (FileMode.IsRegular (Type_ c)) eqn:Er.
    + destruct (typeC_entry_regular sourceURL targetURL ev c Ee Ec Er)
        as [m ->]. reflexivity.
    + unfold typeC_entry. rewrite Ee, Ec, Er. reflexivity.
Qed.

Lemma typeC_loop_count sourceURL targetURL events :
  Forall wellFormed events ->
  snd (typeC_loop sourceURL targetURL events) = Closed
  /\ List.length (fst (typeC_loop sourceURL targetURL events))
     = List.length (filter emits events).
Proof.
  induction 1 as [|ev rest W _ [IHs IHl]]; simpl; [auto|].
  pose proof (typeC_entry_closed sourceURL targetURL ev W) as Hc.
  pose proof (typeC_entry_count sourceURL targetURL ev W) as Hn.
  destruct (typeC_entry sourceURL targetURL ev) as [out st].
  simpl in Hc, Hn. subst st. simpl. split; [exact IHs|].
  rewrite length_app, IHl, Hn. destruct (emits ev); reflexivity.
Qed.

(** Over a listing whose events all carry an error or an entry, the type
    C plan closes its channel and has one instruction per error event
    and per regular file, and none for anything else. *)
Theorem prepareCopyURLsTypeC_count (sourceURL targetURL : string) clnt dir :
  isURLRecursive sourceURL = true ->
  url2Stat (stripRecursiveURL sourceURL) = Ok (clnt, dir) ->
  FileMode.IsDir (Type_ dir) = true ->
  Forall wellFormed (List clnt true) ->
  snd (prepareCopyURLsTypeC sourceURL targetURL) = Closed
  /\ List.length (fst (prepareCopyURLsTypeC sourceURL targetURL))
     = List.length (filter emits (List clnt true)).
Proof.
  intros Hr Hs Hd W. unfold prepareCopyURLsTypeC.
  rewrite Hr. simpl. rewrite Hs, Hd. simpl.
  apply typeC_loop_count. exact W.
Qed.

(** A listing event with neither entry nor error ends the type C plan at
    that event: what the earlier events yielded is kept, the later events
    yield nothing, and the channel is not closed. *)
Theorem prepareCopyURLsTypeC_nil_event (sourceURL targetURL : string)
  clnt dir before after :
  isURLRecursive sourceURL = true ->
  url2Stat (stripRecursiveURL sourceURL) = Ok (clnt, dir) ->
  FileMode.IsDir (Type_ dir) = true ->
  List clnt true = before ++ zeroEvent :: after ->
  Forall wellFormed before ->
  prepareCopyURLsTypeC sourceURL targetURL
  = (fst (typeC_loop (stripRecursiveURL sourceURL) targetURL before),
     Panicked).
Proof.
  intros Hr Hs Hd Hl W. unfold prepareCopyURLsTypeC.
  rewrite Hr. simpl. rewrite Hs, Hd. simpl. rewrite Hl.
  rewrite (typeC_loop_app _ _ before (zeroEvent :: after) W). simpl.
  rewrite app_nil_r. reflexivity.
Qed.

Lemma andThen_assoc {A : Type} (a b c : list A * status) :
  andThen (andThen a b) c = andThen a (andThen b c).
Proof.
  destruct a as [oa [|]]; simpl; [|reflexivity].
  destruct b as [ob [|]]; simpl; [|reflexivity].
  rewrite app_assoc. reflexivity.
Qed.

Lemma andThen_nil {A : Type} (k : list A * status) : andThen ([], Closed) k = k.
Proof. destruct k. reflexivity. Qed.

Lemma typeD_loop_app l1 l2 targetURL :
  typeD_loop (l1 ++ l2) targetURL
  = andThen (typeD_loop l1 targetURL) (typeD_loop l2 targetURL).
Proof.
  induction l1 as [|s l1 IH]; simpl.
  - symmetry. apply andThen_nil.
  - rewrite IH. symmetry. apply andThen_assoc.
Qed.

(** Type D plans its sources in list order: the plan of a list is the
    plan of its first part followed by the plan of the rest (nothing
    follows a part that did not close its channel); and for sources none
    of which is recursive it is one instruction per source. *)
Theorem prepareCopyURLsTypeD_in_order (l1 l2 : list string) (targetURL : string) :
  prepareCopyURLsTypeD (Slice (l1 ++ l2)) targetURL
  = andThen (prepareCopyURLsTypeD (Slice l1) targetURL)
            (prepareCopyURLsTypeD (Slice l2) targetURL)
  /\ (forallb (fun s => negb (isURLRecursive s)) l1 = true ->
      prepareCopyURLsTypeD (Slice l1) targetURL
      = (flat_map (fun s => prepareCopyURLsTypeB s targetURL) l1, Closed)
      /\ List.length (fst (prepareCopyURLsTypeD (Slice l1) targetURL))
         = List.length l1).
Proof.
  split; [apply typeD_loop_app|].
  unfold prepareCopyURLsTypeD. simpl.
  induction l1 as [|s l1 IH]; intros H; simpl; [auto|].
  simpl in H. apply andb_true_iff in H. destruct H as [Hs H].
  apply negb_true_iff in Hs. rewrite Hs.
  destruct (IH H) as [IHe IHl]. rewrite IHe. simpl. split; [reflexivity|].
  rewrite length_app. rewrite IHe in IHl. simpl in IHl. rewrite IHl.
  rewrite (proj1 (typeB_single s targetURL)).
  reflexivity.
Qed.


End WithBackend.

End CpPlans.

(** ** [checkCopySyntax]: the check that runs before a copy is planned *)

Module CpSyntax.
Import GoStrings Client Cp.

(** The checks that end the command with [console.Fatalf]; the argument
    is the URL the message names. *)
Inductive fatal :=
| UnknownURLTypes
| TargetRecursive (targetURL : string)
| UnableToStatSource (sourceURL : string)
| SourceNotDirectory (sourceURL : string)
| TargetNotDirectory (targetURL : string)
| InvalidArguments.

(** How the check leaves the command: it returns, it shows the help
    and exits with a code, it exits with a fatal message, or it indexes a
    slice out of range. *)
Inductive exit :=
| Proceeds
| ShowsHelp (code : Z)
| Fatal (f : fatal)
| OutOfRange.

(** [args2URLs], whose code lies outside [cp-url.go]. *)
Class Arguments := {
  args2URLs : list string -> result (list string)
}.

Section Check.
Context {B : Backend} {A : Arguments}.

(** The loop of case [copyURLsTypeC]. *)
Fixpoint checkRecursiveSources (srcURLs : list string) : exit :=
  match srcURLs with
  | [] => Proceeds
  | srcURL :: rest =>
      let srcURL := stripRecursiveURL srcURL in
      match url2Stat srcURL with
      | Failed _ => Fatal (UnableToStatSource srcURL)
      | Ok (_, srcContent) =>
          if FileMode.IsRegular (Type_ srcContent)
          then Fatal (SourceNotDirectory (stripRecursiveURL srcURL))
          else checkRecursiveSources rest
      end
  end.

Definition checkCopySyntax (args : list string) : exit :=
  if (Z.of_nat (List.length args) <? 2) || String.eqb (hd "" args) "help"
  then ShowsHelp 1
  else
    match args2URLs args with
    | Failed _ => Fatal UnknownURLTypes
    | Ok URLs =>
        match URLs with
        | [] => OutOfRange
        | _ =>
            let srcURLs := removelast URLs in
            let tgtURL := last URLs "" in
            if isURLRecursive tgtURL then Fatal (TargetRecursive tgtURL)
            else
              match guessCopyURLType (Slice srcURLs) tgtURL with
              | copyURLsTypeA => Proceeds
              | copyURLsTypeB => Proceeds
              | copyURLsTypeC => checkRecursiveSources srcURLs
              | copyURLsTypeD =>
                  if negb (isTargetURLDir tgtURL)
                  then Fatal (TargetNotDirectory tgtURL)
                  else Proceeds
              | copyURLsTypeInvalid => Fatal InvalidArguments
              end
        end
    end.

End Check.

End CpSyntax.

Module CpSyntaxFacts.
Import GoStrings Client Cp CpSyntax CpPlans.

Section WithBackend.
Context {B : Backend} {A : Arguments}.

(** What the check asks of the URLs: a target that is neither recursive
    nor blank; for one recursive source, a source that can be stat'ed and
    is not a regular file; for no source or several, a target that is an
    existing directory. *)
Definition acceptable (URLs : list string) : Prop :=
  let srcURLs := removelast URLs in
  let tgtURL := last URLs "" in
  URLs <> []
  /\ isURLRecursive tgtURL = false
  /\ TrimSpace tgtURL <> ""
  /\ (forall s, srcURLs = [s] -> isURLRecursive s = true ->
        exists clnt c, url2Stat (stripRecursiveURL s) = Ok (clnt, c)
                       /\ FileMode.IsRegular (Type_ c) = false)
  /\ (List.length srcURLs <> 1%nat -> isTargetURLDir tgtURL = true).

Lemma guess_single s tgtURL :
  TrimSpace tgtURL <> "" ->
  guessCopyURLType (Slice [s]) tgtURL
  = if isURLRecursive s then copyURLsTypeC
    else if isTargetURLDir tgtURL then copyURLsTypeB else copyURLsTypeA.
Proof.
  intros H. unfold guessCopyURLType.
  destruct (String.eqb_spec (TrimSpace tgtURL) "") as [E|_]; [contradiction|].
  destruct (String.eqb_spec tgtURL "") as [E|_];
    [destruct (H (TrimSpace_of_empty _ E))|].
  reflexivity.
Qed.

Lemma guess_not_single l tgtURL :
  TrimSpace tgtURL <> "" -> List.length l <> 1%nat ->
  guessCopyURLType (Slice l) tgtURL = copyURLsTypeD.
Proof.
  intros H Hl. unfold guessCopyURLType.
  destruct (String.eqb_spec (TrimSpace tgtURL) "") as [E|_]; [contradiction|].
  destruct (String.eqb_spec tgtURL "") as [E|_];
    [destruct (H (TrimSpace_of_empty _ E))|].
  simpl. unfold len. simpl.
  destruct (Z.eqb_spec (Z.of_nat (List.length l)) 1) as [E|E];
    [lia | reflexivity].
Qed.

(** When the check returns. *)
Lemma checkCopySyntax_cases (args : list string) :
  checkCopySyntax args = Proceeds
  <-> (2 <= List.length args)%nat /\ hd "" args <> "help"
      /\ exists URLs, args2URLs args = Ok URLs /\ acceptable URLs.
Proof.
  unfold checkCopySyntax.
  destruct (Z.ltb_spec (Z.of_nat (List.length args)) 2) as [Hl|Hl]; simpl.
  { split; [discriminate | intros [H _]; lia]. }
  destruct (String.eqb_spec (hd "" args) "help") as [Eh|Eh].
  { split; [discriminate | intros (_ & H & _); contradiction]. }
  destruct (args2URLs args) as [URLs|err].
  2: { split; [discriminate | intros (_ & _ & U & HU & _); discriminate]. }
  assert (Hrest :
    match URLs with
    | [] => OutOfRange
    | _ =>
        if isURLRecursive (last URLs "") then Fatal (TargetRecursive (last URLs ""))
        else
          match guessCopyURLType (Slice (removelast URLs)) (last URLs "") with
          | copyURLsTypeA => Proceeds
          | copyURLsTypeB => Proceeds
          | copyURLsTypeC => checkRecursiveSources (removelast URLs)
          | copyURLsTypeD =>
              if negb (isTargetURLDir (last URLs ""))
              then Fatal (TargetNotDirectory (last URLs ""))
              else Proceeds
          | copyURLsTypeInvalid => Fatal InvalidArguments
          end
    end = Proceeds <-> acceptable URLs).
  { unfold acceptable.
    destruct URLs as [|u URLs'].
    { split; [discriminate | intros [H _]; congruence]. }
    cbv match.
    assert (Hne : u :: URLs' <> []) by discriminate.
    set (URLs := u :: URLs') in *. clearbody URLs.
    set (tgt := last URLs "").
    set (srcs := removelast URLs).
    destruct (isURLRecursive tgt) eqn:Et.
    { split; [discriminate | intros (_ & H & _); discriminate]. }
    destruct (String.eqb_spec (TrimSpace tgt) "") as [Eb|Eb].
    { rewrite (proj2 (guess_invalid_cases (Slice srcs) tgt)
                 (or_introl Eb)).
      split; [discriminate | intros (_ & _ & H & _); contradiction]. }
    destruct srcs as [|s [|s' srcs']] eqn:Es.
    - rewrite (guess_not_single [] tgt Eb) by (simpl; lia).
      destruct (isTargetURLDir tgt) eqn:Ed; simpl.
      + split; [|reflexivity]. intros _.
        split; [exact Hne|]. split; [reflexivity|]. split; [exact Eb|].
        split; [intros s0 Hs0; discriminate | reflexivity].
      + split; [discriminate|]. intros (_ & _ & _ & _ & H).
        specialize (H ltac:(simpl; lia)). discriminate.
    - rewrite (guess_single s tgt Eb).
      destruct (isURLRecursive s) eqn:Er.
      + simpl.
        destruct (url2Stat (stripRecursiveURL s)) as [[clnt c]|err] eqn:Est.
        * destruct (FileMode.IsRegular (Type_ c)) eqn:Ec.
          -- split; [discriminate|]. intros (_ & _ & _ & H & _).
             destruct (H s eq_refl Er) as (clnt' & c' & E' & Hc').
             congruence.
          -- split; [|reflexivity]. intros _.
             split; [exact Hne|]. split; [reflexivity|]. split; [exact Eb|].
             split.
             ++ intros s0 [= <-] _. exists clnt, c. auto.
             ++ simpl. intros H. congruence.
        * split; [discriminate|]. intros (_ & _ & _ & H & _).
          destruct (H s eq_refl Er) as (clnt' & c' & E' & Hc').
          congruence.
      + assert (Hgoal : Proceeds = Proceeds <->
                  URLs <> [] /\ false = false /\ TrimSpace tgt <> ""
                  /\ (forall s0, [s] = [s0] -> isURLRecursive s0 = true ->
                        exists clnt c,
                          url2Stat (stripRecursiveURL s0) = Ok (clnt, c)
                          /\ FileMode.IsRegular (Type_ c) = false)
                  /\ (List.length [s] <> 1%nat -> isTargetURLDir tgt = true)).
        { split; [|reflexivity]. intros _.
          split; [exact Hne|]. split; [reflexivity|]. split; [exact Eb|].
          split.
          - intros s0 [= <-] Hr0. congruence.
          - simpl. intros H. congruence. }
        destruct (isTargetURLDir tgt); exact Hgoal.
    - rewrite (guess_not_single (s :: s' :: srcs') tgt Eb) by (simpl; lia).
      destruct (isTargetURLDir tgt) eqn:Ed; simpl.
      + split; [|reflexivity]. intros _.
        split; [exact Hne|]. split; [reflexivity|]. split; [exact Eb|].
        split; [intros s0 Hs0; discriminate | reflexivity].
      + split; [discriminate|]. intros (_ & _ & _ & _ & H).
        specialize (H ltac:(simpl; lia)). discriminate. }
  rewrite Hrest. split.
  - intros H. repeat split; [lia | exact Eh | exists URLs; auto].
  - intros (_ & _ & U & [= <-] & H). exact H.
Qed.


(** A recursive source that is neither a regular file nor a directory
    (a symbolic link, a device) passes the check, which rejects regular
    files only, and its plan is then the single error
    [errSourceIsNotDir]: nothing is copied. *)
Theorem checkCopySyntax_passes_what_typeC_rejects
  (args : list string) (s t : string) clnt c :
  (2 <= List.length args)%nat -> hd "" args <> "help" ->
  args2URLs args = Ok [s; t] ->
  isURLRecursive s = true -> isURLRecursive t = false ->
  TrimSpace t <> "" ->
  url2Stat (stripRecursiveURL s) = Ok (clnt, c) ->
  FileMode.IsRegular (Type_ c) = false ->
  FileMode.IsDir (Type_ c) = false ->
  checkCopySyntax args = Proceeds
  /\ prepareCopyURLs (Slice [s]) t
     = ([errorURLs (errSourceIsNotDir (stripRecursiveURL s))], Closed).
Proof.
  intros Hl Hh Ha Hs Ht Hb Hst Hr Hd. split.
  - apply checkCopySyntax_cases.
    repeat split; try assumption. exists [s; t]. split; [exact Ha|].
    unfold acceptable. simpl.
    repeat split; try assumption; try discriminate.
    + intros s0 [= <-] _. exists clnt, c. auto.
    + intros H. congruence.
  - unfold prepareCopyURLs. rewrite (guess_single s t Hb), Hs. simpl.
    unfold prepareCopyURLsTypeC. rewrite Hs. simpl. rewrite Hst, Hd.
    reflexivity.
Qed.

End WithBackend.

End CpSyntaxFacts.

(** ** More of the mirror file: what the oracle and the engine never do *)

Module MirrorRuns.
Import GoStrings Client Mirror StringOrder OracleFacts EngineFacts.

Section WithBackend.
Context {B : Backend}.

Lemma isAvailable_loop_cursor (force : bool) (u e : string) (srcType srcSize : Z) :
  forall chan cur okv cont b o',
    isAvailable_loop force u e srcType srcSize chan cur okv cont
    = (Returns (b, None), o') ->
    url o' = u /\ (reachedEOF o' = true \/ le e (current o')).
Proof.
  induction chan as [|ev rest IH]; intros cur okv cont b o' H; simpl in H;
    (destruct (e <? cur)%string eqn:Elt;
     [ injection H as _ <-; simpl; split; [reflexivity|];
       right; apply lt_le; exact Elt
     | destruct (e =? cur)%string eqn:Eeq;
       [ apply String.eqb_eq in Eeq; subst cur;
         destruct (EvContent cont) as [tgt|]; [|discriminate];
         destruct (_ && negb (FileMode.IsRegular _));
         [discriminate|];
         destruct (_ && negb (_ =? _));
         [destruct (negb force); [discriminate|]|];
         injection H as _ <-; simpl; split; try reflexivity;
         right; apply le_refl
       | ] ]).
  - injection H as _ <-. simpl. auto.
  - destruct (EvErr ev); [discriminate|].
    destruct (EvContent ev) as [c|]; [|discriminate].
    eapply IH. exact H.
Qed.

(** The cursor never rewinds: after a call that returned without error,
    a call about any path below the one just asked answers "not
    available" without error and leaves the closure as it is, whatever
    the listing holds at that path. *)
Theorem isAvailable_never_rewinds (force force' : bool) (o o' : oracle)
  (suffix suffix' : string) (srcType srcSize srcType' srcSize' : Z) (b : bool) :
  isAvailable force o suffix srcType srcSize = (Returns (b, None), o') ->
  lt (urlJoinPath (url o) suffix') (urlJoinPath (url o) suffix) ->
  isAvailable force' o' suffix' srcType' srcSize' = (Returns (false, None), o').
Proof.
  unfold isAvailable at 1. intros H Hlt.
  assert (Hc : url o' = url o
               /\ (reachedEOF o' = true \/
                   le (urlJoinPath (url o) suffix) (current o'))).
  { destruct (reachedEOF o) eqn:Eof.
    - injection H as _ <-. auto.
    - eapply isAvailable_loop_cursor. exact H. }
  destruct Hc as [Hu [Heof | Hle]]; unfold isAvailable.
  - rewrite Heof. reflexivity.
  - destruct (reachedEOF o') eqn:Eof; [reflexivity|].
    pose proof (lt_le_trans _ _ _ Hlt Hle) as Hlt'.
    destruct o' as [u' chan cur eof okv cont]. simpl in *. subst eof u'.
    destruct chan; simpl; unfold lt in Hlt'; rewrite Hlt'; reflexivity.
Qed.

(** Once a call has found the channel closed, that call and every later
    one, whatever it asks, answer "not available" without error. *)
Theorem isAvailable_sticky_end (force : bool) (o : oracle)
  (suffix : string) (srcType srcSize : Z) (qs : list (string * Z * Z)) :
  reachedEOF o = false -> ch o = [] ->
  lt (current o) (urlJoinPath (url o) suffix) ->
  askAll force o ((suffix, srcType, srcSize) :: qs)
  = repeat (Returns (false, None)) (S (List.length qs)).
Proof.
  intros Heof Hch Hlt.
  assert (Hend : forall o1, reachedEOF o1 = true ->
            askAll force o1 qs = repeat (Returns (false, None)) (List.length qs)).
  { induction qs as [|[[s t] z] qs IH]; intros o1 H1; simpl; [reflexivity|].
    unfold isAvailable. rewrite H1. f_equal. apply IH. exact H1. }
  simpl. unfold isAvailable. rewrite Heof, Hch. simpl.
  pose proof (lt_not_le _ _ Hlt) as Hn. unfold le in Hn.
  destruct (urlJoinPath (url o) suffix <? current o)%string eqn:E1.
  - exfalso. apply (lt_irrefl (current o)).
    eapply lt_trans; [exact Hlt | exact E1].
  - rewrite (String.eqb_sym _ (current o)), (lt_neq _ _ Hlt).
    f_equal. apply Hend. reflexivity.
Qed.

Lemma openTargets_fails (ts : list string) :
  (exists t err, In t ts /\ url2Client t = Failed err) ->
  exists err, openTargets ts = Failed err.
Proof.
  induction ts as [|t ts IH]; intros (t0 & err & Hin & Hf);
    [destruct Hin|].
  simpl. unfold getIsAvailable.
  destruct (url2Client t) as [clnt|err'] eqn:Ec; [|eauto].
  destruct Hin as [<- | Hin]; [congruence|].
  destruct (IH (ex_intro _ t0 (ex_intro _ err (conj Hin Hf)))) as [e ->].
  eauto.
Qed.

Lemma openTargets_opens (ts : list string) :
  (forall t, In t ts -> exists clnt, url2Client t = Ok clnt) ->
  exists os, openTargets ts = Ok os /\ List.length ts = List.length os.
Proof.
  induction ts as [|t ts IH]; intros H; [exists []; auto|].
  destruct (H t (or_introl eq_refl)) as [clnt Hc].
  destruct (IH (fun t' Ht' => H t' (or_intror Ht'))) as (os & Ho & Hl).
  simpl. unfold getIsAvailable. rewrite Hc, Ho. eexists. split; [reflexivity|].
  simpl. congruence.
Qed.

(** When the client of any target cannot be made, the run is one error
    instruction and nothing else, whatever the source holds; when every
    target has a client and the source has none, it is the error of the
    source. *)
Theorem deltaSourceTargets_without_client (force : bool) (sourceURL : string)
  (targetURLs : list string) :
  ((exists t err, In t targetURLs
                  /\ url2Client (withSeparator t) = Failed err) ->
   exists err, deltaSourceTargets force sourceURL targetURLs
               = ([errorURLs err], Closed))
  /\ ((forall t, In t targetURLs ->
         exists clnt, url2Client (withSeparator t) = Ok clnt) ->
      forall err, url2Client (withSeparator sourceURL) = Failed err ->
        deltaSourceTargets force sourceURL targetURLs
        = ([errorURLs err], Closed)).
Proof.
  split.
  - intros (t & err & Hin & Hf).
    destruct (openTargets_fails (map withSeparator targetURLs)) as [e He].
    { exists (withSeparator t), err. split; [|exact Hf].
      apply in_map. exact Hin. }
    exists e. unfold deltaSourceTargets. rewrite He. reflexivity.
  - intros Hall err Hs.
    destruct (openTargets_opens (map withSeparator targetURLs))
      as (os & Ho & _).
    { intros t Ht. apply in_map_iff in Ht. destruct Ht as (t0 & <- & Ht0).
      apply Hall. exact Ht0. }
    unfold deltaSourceTargets. rewrite Ho, Hs. reflexivity.
Qed.

Lemma in_filesOf (c : Content) (events : list ContentOnChannel) :
  In c (filesOf events) ->
  FileMode.IsDir (Type_ c) = false
  /\ exists ev, In ev events /\ EvContent ev = Some c.
Proof.
  unfold filesOf. intros H. apply in_flat_map in H.
  destruct H as (ev & Hev & Hin).
  destruct (EvContent ev) as [c'|] eqn:Ec; [|destruct Hin].
  destruct (FileMode.IsDir (Type_ c')) eqn:Ed; [destruct Hin|].
  destruct Hin as [<- | []]. split; [exact Ed|]. exists ev. auto.
Qed.

(** Whatever the listings hold, the source of an instruction is an entry
    the source listing delivered and never a directory; and a run with no
    target emits error instructions only. *)
Theorem deltaSourceTargets_sources (force : bool) (sourceURL : string)
  (targetURLs : list string) :
  (forall m c,
     In m (fst (deltaSourceTargets force sourceURL targetURLs)) ->
     SourceContent m = Some c ->
     FileMode.IsDir (Type_ c) = false
     /\ Error m = None
     /\ exists ev, In ev (listingOf (withSeparator sourceURL))
                   /\ EvContent ev = Some c)
  /\ (targetURLs = [] ->
      forall m, In m (fst (deltaSourceTargets force sourceURL targetURLs)) ->
        exists err, m = errorURLs err).
Proof.
  pose proof (deltaSourceTargets_shape force sourceURL targetURLs) as Hsh.
  rewrite Forall_forall in Hsh. split.
  - intros m c Hin Hs.
    destruct (Hsh m Hin) as [[e ->] | (c' & tcs & -> & _ & Hf & _)];
      [discriminate|].
    simpl in Hs. injection Hs as ->.
    destruct (in_filesOf _ _ Hf) as [Hd Hev]. auto.
  - intros -> m Hin.
    destruct (Hsh m Hin) as [He | (c' & tcs & -> & Hne & _ & Hall)];
      [exact He|].
    destruct tcs as [|tc tcs]; [congruence|].
    inversion Hall as [|? ? (t & [] & _) _].
Qed.

Lemma sourceLoop_forwards (force : bool) (sourceURL sourceBaseDir : string)
  (ts : list string) :
  forall events os,
    snd (sourceLoop force sourceURL sourceBaseDir ts events os) = Closed ->
    forall ev err, In ev events -> EvErr ev = Some err ->
      In (errorURLs err)
         (fst (sourceLoop force sourceURL sourceBaseDir ts events os)).
Proof.
  induction events as [|ev0 rest IH]; intros os Hc ev err Hin He;
    [destruct Hin|].
  simpl in *.
  destruct (EvErr ev0) as [err0|] eqn:E0.
  - specialize (IH os).
    destruct (sourceLoop force sourceURL sourceBaseDir ts rest os)
      as [out st]. simpl in *.
    destruct Hin as [<- | Hin].
    + left. congruence.
    + right. eapply IH; eassumption.
  - destruct Hin as [<- | Hin]; [congruence|].
    destruct (EvContent ev0) as [c|]; [|discriminate].
    destruct (FileMode.IsDir (Type_ c)); [eapply IH; eassumption|].
    destruct (targetsLoop force _ c os ts []) as [out [[os' tcs]|]];
      [|discriminate].
    specialize (IH os').
    destruct (sourceLoop force sourceURL sourceBaseDir ts rest os')
      as [out' st]. simpl in *.
    apply in_or_app. right. apply in_or_app. right.
    eapply IH; eassumption.
Qed.

(** When every client can be made and the run closes its channel, every
    error event of the source listing is in the output as an error
    instruction: a listing error does not end the enumeration. *)
Theorem deltaSourceTargets_forwards_errors (force : bool) (sourceURL : string)
  (targetURLs : list string) clnt ev err :
  (forall t, In t targetURLs ->
     exists c, url2Client (withSeparator t) = Ok c) ->
  url2Client (withSeparator sourceURL) = Ok clnt ->
  snd (deltaSourceTargets force sourceURL targetURLs) = Closed ->
  In ev (List clnt true false) -> EvErr ev = Some err ->
  In (errorURLs err) (fst (deltaSourceTargets force sourceURL targetURLs)).
Proof.
  intros Hall Hs Hc Hin He.
  destruct (openTargets_opens (map withSeparator targetURLs))
    as (os & Ho & _).
  { intros t Ht. apply in_map_iff in Ht. destruct Ht as (t0 & <- & Ht0).
    apply Hall. exact Ht0. }
  unfold deltaSourceTargets in *. rewrite Ho, Hs in *.
  eapply sourceLoop_forwards; eassumption.
Qed.

Lemma targetsLoop_bound (force : bool) (suffix : string) (c : Content) :
  forall os ts tcs out os' tcs',
    targetsLoop force suffix c os ts tcs = (out, Returns (os', tcs')) ->
    (List.length tcs' <= List.length tcs + List.length os)%nat.
Proof.
  induction os as [|o os IH]; intros ts tcs out os' tcs' H; simpl in H.
  - injection H as _ _ <-. lia.
  - destruct (isAvailable force o suffix (Type_ c) (Size c)) as [r o1].
    destruct r as [[b [err|]]|]; [| |discriminate].
    + destruct (targetsLoop force suffix c os (tl ts) tcs)
        as [out1 [[os1 tcs1]|]] eqn:E; [|discriminate].
      injection H as _ _ <-. specialize (IH _ _ _ _ _ E). simpl. lia.
    + destruct (targetsLoop force suffix c os (tl ts) _)
        as [out1 [[os1 tcs1]|]] eqn:E; [|discriminate].
      injection H as _ _ <-. specialize (IH _ _ _ _ _ E).
      destruct b; simpl in IH; [|rewrite length_app in IH]; simpl in *; lia.
Qed.

Lemma targetsLoop_length (force : bool) (suffix : string) (c : Content) :
  forall os ts tcs out os' tcs',
    targetsLoop force suffix c os ts tcs = (out, Returns (os', tcs')) ->
    List.length os' = List.length os.
Proof.
  induction os as [|o os IH]; intros ts tcs out os' tcs' H; simpl in H.
  - injection H as _ <- _. reflexivity.
  - destruct (isAvailable force o suffix (Type_ c) (Size c)) as [r o1].
    destruct r as [[b [err|]]|]; [| |discriminate].
    + destruct (targetsLoop force suffix c os (tl ts) tcs)
        as [out1 [[os1 tcs1]|]] eqn:E; [|discriminate].
      injection H as _ <- _. simpl. f_equal. eapply IH. exact E.
    + destruct (targetsLoop force suffix c os (tl ts) _)
        as [out1 [[os1 tcs1]|]] eqn:E; [|discriminate].
      injection H as _ <- _. simpl. f_equal. eapply IH. exact E.
Qed.

Lemma sourceLoop_bound (force : bool) (sourceURL sourceBaseDir : string)
  (ts : list string) :
  forall events os m,
    List.length ts = List.length os ->
    In m (fst (sourceLoop force sourceURL sourceBaseDir ts events os)) ->
    (List.length (TargetContents m) <= List.length os)%nat.
Proof.
  induction events as [|ev rest IH]; intros os m Hlen Hin; simpl in Hin;
    [destruct Hin|].
  destruct (EvErr ev) as [err|].
  - specialize (IH os m Hlen).
    destruct (sourceLoop force sourceURL sourceBaseDir ts rest os)
      as [out st]. simpl in *.
    destruct Hin as [<- | Hin]; [simpl; lia | auto].
  - destruct (EvContent ev) as [c|]; [|destruct Hin].
    destruct (FileMode.IsDir (Type_ c)); [apply (IH os m Hlen Hin)|].
    destruct (targetsLoop force (suffixOf sourceURL sourceBaseDir c) c os ts [])
      as [out res] eqn:E.
    destruct (targetsLoop_shape force _ c os ts [] out res Hlen E) as [Hf _].
    assert (Herr : forall m0, In m0 out -> TargetContents m0 = []).
    { intros m0 H0. rewrite Forall_forall in Hf.
      destruct (Hf m0 H0) as [e ->]. reflexivity. }
    destruct res as [[os' tcs]|].
    + pose proof (targetsLoop_bound _ _ _ _ _ _ _ _ _ E) as Hb.
      pose proof (targetsLoop_length _ _ _ _ _ _ _ _ _ E) as Hl.
      assert (Hlen' : List.length ts = List.length os') by congruence.
      specialize (IH os' m Hlen').
      destruct (sourceLoop force sourceURL sourceBaseDir ts rest os')
        as [out' st]. simpl in *.
      apply in_app_or in Hin. destruct Hin as [Hin | Hin].
      * rewrite (Herr m Hin). simpl. lia.
      * apply in_app_or in Hin. destruct Hin as [Hin | Hin].
        -- destruct (0 <? Z.of_nat (List.length tcs)); [|destruct Hin].
           destruct Hin as [<- | []]. simpl. lia.
        -- rewrite <- Hl. auto.
    + simpl in Hin. rewrite (Herr m Hin). simpl. lia.
Qed.

(** No instruction lists more target references than the run has
    targets. *)
Theorem deltaSourceTargets_targets_bound (force : bool) (sourceURL : string)
  (targetURLs : list string) (m : mirrorURLs) :
  In m (fst (deltaSourceTargets force sourceURL targetURLs)) ->
  (List.length (TargetContents m) <= List.length targetURLs)%nat.
Proof.
  unfold deltaSourceTargets.
  destruct (openTargets (map withSeparator targetURLs)) as [os|err] eqn:Eo.
  - pose proof (openTargets_length _ _ Eo) as Hl. rewrite length_map in Hl.
    destruct (url2Client (withSeparator sourceURL)) as [clnt|err].
    + intros Hin. rewrite Hl. eapply sourceLoop_bound; [|exact Hin].
      rewrite length_map. exact Hl.
    + intros [<- | []]. simpl. lia.
  - intros [<- | []]. simpl. lia.
Qed.

End WithBackend.

End MirrorRuns.

(** ** [checkMirrorSyntax]: the check that runs before a mirror is planned *)

Module MirrorSyntax.
Import GoStrings Client Mirror.

(** The checks that end the command through [fatalIf]; the argument is
    the URL the message names. *)
Inductive fatal :=
| UnableToParseArguments
| UnableToStatSource (newSrcURL : string)
| SourceNotFolder (srcURL : string)
| InvalidTargetArguments
| RecursiveTarget (tgtURL : string)
| NoBucketName (tgtURL : string)
| UnableToStatTarget (tgtURL : string)
| TargetNotFolder (tgtURL : string).

Inductive exit :=
| Proceeds
| ShowsHelp (code : Z)
| Fatal (f : fatal)
| OutOfRange
| NilDereference.

(** The helpers the check calls and whose code lies outside the mirror
    file.  [url2Stat] gives the content pointer and the error pointer it
    returns (the client is not used here); [fatalIf] returns when the
    error it is given is nil. *)
Class Checks := {
  args2URLs : list string -> result (list string);
  stripRecursiveURL : string -> string;
  isURLRecursive : string -> bool;
  url2Stat : string -> option Content * option error;
  prefixExists : string -> bool
}.

Section Check.
Context {B : Backend} {K : Checks}.

(** The body of [for _, tgtURL := range tgtURLs]: [None] when the loop
    goes on. *)
Definition checkTarget (tgtURL : string) : option fatal :=
  if isURLRecursive tgtURL then Some (RecursiveTarget tgtURL)
  else
    let url := NewURL tgtURL in
    if negb (String.eqb (Host url) "")
       && String.eqb (Path url) (string_of_rune (Separator url))
    then Some (NoBucketName tgtURL)
    else
      match url2Stat tgtURL with
      | (_, Some _) => Some (UnableToStatTarget tgtURL)
      | (content, None) =>
          match content with
          | Some c =>
              if negb (FileMode.IsDir (Type_ c))
              then Some (TargetNotFolder tgtURL) else None
          | None => None
          end
      end.

Fixpoint checkTargets (tgtURLs : list string) : exit :=
  match tgtURLs with
  | [] => Proceeds
  | tgtURL :: rest =>
      match checkTarget tgtURL with
      | Some f => Fatal f
      | None => checkTargets rest
      end
  end.

Definition checkMirrorSyntax (args : list string) : exit :=
  if (Z.of_nat (List.length args) <? 2) || String.eqb (hd "" args) "help"
  then ShowsHelp 1
  else
    match args2URLs args with
    | Failed _ => Fatal UnableToParseArguments
    | Ok URLs =>
        match URLs with
        | [] => OutOfRange
        | srcURL :: rest =>
            let tgtURLs := Slice rest in
            let newSrcURL := stripRecursiveURL srcURL in
            let (srcContent, err) := url2Stat newSrcURL in
            if negb (isNone err) && negb (prefixExists newSrcURL)
            then Fatal (UnableToStatSource newSrcURL)
            else
              match (if isNone err
                     then match srcContent with
                          | None => Some NilDereference
                          | Some c =>
                              if negb (FileMode.IsDir (Type_ c))
                              then Some (Fatal (SourceNotFolder srcURL))
                              else None
                          end
                     else None) with
              | Some e => e
              | None =>
                  if (len tgtURLs =? 0) && isNil tgtURLs
                  then Fatal InvalidTargetArguments
                  else checkTargets (elements tgtURLs)
              end
        end
    end.

End Check.

End MirrorSyntax.

Module MirrorSyntaxFacts.
Import GoStrings Client Mirror MirrorSyntax.

Section WithBackend.
Context {B : Backend} {K : Checks}.

(** The source the check lets through: a folder, or a path that cannot
    be stat'ed but is a prefix of something. *)
Definition sourceOk (srcURL : string) : Prop :=
  match url2Stat (stripRecursiveURL srcURL) with
  | (_, Some _) => prefixExists (stripRecursiveURL srcURL) = true
  | (Some c, None) => FileMode.IsDir (Type_ c) = true
  | (None, None) => False
  end.

(** The target the check lets through: not recursive, not a bare host,
    stat'ed without error, and a folder when the stat gives a content. *)
Definition targetOk (tgtURL : string) : Prop :=
  isURLRecursive tgtURL = false
  /\ (Host (NewURL tgtURL) = ""
      \/ Path (NewURL tgtURL) <> string_of_rune (Separator (NewURL tgtURL)))
  /\ snd (url2Stat tgtURL) = None
  /\ (forall c, fst (url2Stat tgtURL) = Some c ->
        FileMode.IsDir (Type_ c) = true).

Lemma checkTarget_ok (tgtURL : string) :
  checkTarget tgtURL = None <-> targetOk tgtURL.
Proof.
  unfold checkTarget, targetOk.
  destruct (isURLRecursive tgtURL).
  { split; [discriminate | intros [H _]; discriminate]. }
  destruct (String.eqb_spec (Host (NewURL tgtURL)) "") as [Eh|Eh];
    destruct (String.eqb_spec (Path (NewURL tgtURL))
                (string_of_rune (Separator (NewURL tgtURL)))) as [Ep|Ep];
    simpl.
  2, 4: idtac.
  all: try (split; [discriminate | intros (_ & [H|H] & _); contradiction]).
  all: destruct (url2Stat tgtURL) as [[c|] [err|]]; simpl;
    try (split; [discriminate | intros (_ & _ & H & _); discriminate]).
  all: try (destruct (FileMode.IsDir (Type_ c)) eqn:Ed; simpl;
            [ split; [| reflexivity]; intros _;
              repeat split; auto; intros c0 [= <-]; exact Ed
            | split; [discriminate|]; intros (_ & _ & _ & H);
              specialize (H c eq_refl); congruence ]).
  all: split; [| reflexivity]; intros _; repeat split; auto; discriminate.
Qed.

Lemma checkTargets_ok (tgtURLs : list string) :
  checkTargets tgtURLs = Proceeds <-> Forall targetOk tgtURLs.
Proof.
  induction tgtURLs as [|t ts IH]; simpl.
  - split; [constructor | reflexivity].
  - destruct (checkTarget t) as [f|] eqn:E.
    + split; [discriminate|]. intros H. inversion H as [|? ? Ht _].
      apply checkTarget_ok in Ht. congruence.
    + rewrite IH. split.
      * intros H. constructor; [apply checkTarget_ok; exact E | exact H].
      * intros H. inversion H. assumption.
Qed.

(** The check lets a mirror command through exactly when it has at least
    two arguments, the first is not "help", the arguments convert to a
    source URL that is acceptable and target URLs that are all
    acceptable: in particular every target must already exist. *)
Theorem checkMirrorSyntax_proceeds_iff (args : list string) :
  checkMirrorSyntax args = Proceeds
  <-> (2 <= List.length args)%nat /\ hd "" args <> "help"
      /\ exists srcURL tgtURLs,
           args2URLs args = Ok (srcURL :: tgtURLs)
           /\ sourceOk srcURL /\ Forall targetOk tgtURLs.
Proof.
  unfold checkMirrorSyntax.
  destruct (Z.ltb_spec (Z.of_nat (List.length args)) 2) as [Hl|Hl]; simpl.
  { split; [discriminate | intros [H _]; lia]. }
  destruct (String.eqb_spec (hd "" args) "help") as [Eh|Eh].
  { split; [discriminate | intros (_ & H & _); contradiction]. }
  destruct (args2URLs args) as [[|srcURL rest]|err].
  - split; [discriminate | intros (_ & _ & s & t & H & _); discriminate].
  - unfold sourceOk.
    destruct (url2Stat (stripRecursiveURL srcURL)) as [[c|] [e|]] eqn:Es;
      simpl.
    + destruct (prefixExists (stripRecursiveURL srcURL)) eqn:Ep; simpl.
      * rewrite ?andb_false_r, checkTargets_ok. split.
        -- intros H. repeat split; [lia | exact Eh|].
           exists srcURL, rest. rewrite Es. auto.
        -- intros (_ & _ & s & t & [= <- <-] & _ & H). exact H.
      * split; [discriminate|].
        intros (_ & _ & s & t & [= <- <-] & H & _).
        rewrite Es in H. congruence.
    + destruct (FileMode.IsDir (Type_ c)) eqn:Ed; simpl.
      * rewrite ?andb_false_r, checkTargets_ok. split.
        -- intros H. repeat split; [lia | exact Eh|].
           exists srcURL, rest. rewrite Es. auto.
        -- intros (_ & _ & s & t & [= <- <-] & _ & H). exact H.
      * split; [discriminate|].
        intros (_ & _ & s & t & [= <- <-] & H & _).
        rewrite Es in H. congruence.
    + destruct (prefixExists (stripRecursiveURL srcURL)) eqn:Ep; simpl.
      * rewrite ?andb_false_r, checkTargets_ok. split.
        -- intros H. repeat split; [lia | exact Eh|].
           exists srcURL, rest. rewrite Es. auto.
        -- intros (_ & _ & s & t & [= <- <-] & _ & H). exact H.
      * split; [discriminate|].
        intros (_ & _ & s & t & [= <- <-] & H & _).
        rewrite Es in H. congruence.
    + split; [discriminate|].
      intros (_ & _ & s & t & [= <- <-] & H & _).
      rewrite Es in H. destruct H.
  - split; [discriminate | intros (_ & _ & s & t & H & _); discriminate].
Qed.

End WithBackend.

End MirrorSyntaxFacts.

(** ** The S3 client: bucket and object of a URL, and its listings *)

Module S3.
Import GoStrings Client.

(** [client.Content] as this package fills it: name, time, size, type. *)
Record Content := mkContent {
  Name : string;
  Time : Z;
  Size : Z;
  Type_ : Z
}.

Record ContentOnChannel := mkEvent {
  EvContent : option Content;
  EvErr : option error
}.

Definition contentEvent (c : Content) : ContentOnChannel :=
  mkEvent (Some c) None.

Definition errorEvent (e : error) : ContentOnChannel :=
  mkEvent None (Some e).

(** What the [minio] API delivers on its channels. *)
Record BucketStat := mkBucketStat {
  BucketName : string;
  CreationDate : Z
}.

Record BucketStatCh := mkBucketStatCh {
  BStat : BucketStat;
  BErr : option error
}.

Record ObjectStat := mkObjectStat {
  Key : string;
  LastModified : Z;
  ObjectSize : Z
}.

Record ObjectStatCh := mkObjectStatCh {
  OStat : ObjectStat;
  OErr : option error
}.

(** The API of the client, and the library calls of the listing code
    whose results the code only passes on. *)
Class API := {
  ListBuckets : list BucketStatCh;
  ListObjects : string -> string -> bool -> list ObjectStatCh;
  StatObject : string -> string -> result ObjectStat;
  timeNow : Z;
  filepathJoin : string -> string -> string;
  URLString : URL -> string
}.

(** [os.FileMode(0664)]. *)
Definition mode0664 : Z := 436.

(** The text before the first [sep] and the text after it. *)
Fixpoint cut (s : string) (sep : ascii) : option (string * string) :=
  match s with
  | EmptyString => None
  | String c s' =>
      if Ascii.eqb c sep then Some (EmptyString, s')
      else match cut s' sep with
           | None => None
           | Some (a, r) => Some (String c a, r)
           end
  end.

(** [strings.SplitN(s, string(sep), n)] for a one-byte separator and
    [n >= 0]: at most [n] pieces, the last one the unsplit rest. *)
Fixpoint SplitN (s : string) (sep : ascii) (n : nat) : list string :=
  match n with
  | O => []
  | S O => [s]
  | S n' =>
      match cut s sep with
      | None => [s]
      | Some (a, r) => a :: SplitN r sep n'
      end
  end.

(** [strings.TrimSuffix]. *)
Definition TrimSuffix (s suf : string) : string :=
  if HasSuffix s suf
  then String.substring 0 (String.length s - String.length suf) s
  else s.

Section Client.
Context {api : API}.

Definition url2BucketAndObject (hostURL : URL) : string * string :=
  let splits := SplitN (Path hostURL) (Separator hostURL) 3 in
  match List.length splits with
  | 0%nat | 1%nat => ("", "")
  | 2%nat => (nth 1 splits "", "")
  | 3%nat => (nth 1 splits "", nth 2 splits "")
  | _ => ("", "")
  end.

(** A loop over an API channel that sends one content per value and
    returns from the routine at the first error, after sending it.  The
    flag tells whether it returned. *)
Fixpoint untilFirstError {X : Type} (err : X -> option error)
  (content : X -> Content) (xs : list X) : list ContentOnChannel * bool :=
  match xs with
  | [] => ([], false)
  | x :: rest =>
      match err x with
      | Some e => ([errorEvent e], true)
      | None =>
          let (evs, returned) := untilFirstError err content rest in
          (contentEvent (content x) :: evs, returned)
      end
  end.

(** The content [listInRoutine] makes of a bucket. *)
Definition bucketContent (bucket : BucketStatCh) : Content :=
  mkContent (BucketName (BStat bucket)) (CreationDate (BStat bucket)) 0
    FileMode.ModeDir.

(** The content [listInRoutine] makes of an object listed under [o]. *)
Definition listedContent (hostURL : URL) (o : string) (object : ObjectStatCh)
  : Content :=
  let sep := string_of_rune (Separator hostURL) in
  let key := Key (OStat object) in
  let normalizedPrefix := (TrimSuffix o sep ++ sep)%string in
  let normalizedKey :=
    if negb (String.eqb normalizedPrefix key) && HasPrefix key normalizedPrefix
    then TrimPrefix key normalizedPrefix else key in
  if HasSuffix key sep
  then mkContent normalizedKey timeNow 0 FileMode.ModeDir
  else mkContent normalizedKey (LastModified (OStat object))
         (ObjectSize (OStat object)) mode0664.

Definition statContent (metadata : ObjectStat) : Content :=
  mkContent (Key metadata) (LastModified metadata) (ObjectSize metadata)
    mode0664.

Definition listInRoutine (hostURL : URL) : list ContentOnChannel :=
  let (b, o) := url2BucketAndObject hostURL in
  if String.eqb b "" && String.eqb o "" then
    fst (untilFirstError BErr bucketContent ListBuckets)
  else
    match StatObject b o with
    | Ok metadata => [contentEvent (statContent metadata)]
    | Failed _ =>
        fst (untilFirstError OErr (listedContent hostURL o)
               (ListObjects b o false))
    end.

(** The content [listRecursiveInRoutine] makes of an object of a bucket
    when it lists every bucket. *)
Definition bucketObjectContent (bucket : BucketStatCh) (object : ObjectStatCh)
  : Content :=
  mkContent (filepathJoin (BucketName (BStat bucket)) (Key (OStat object)))
    (LastModified (OStat object)) (ObjectSize (OStat object)) mode0664.

(** [for bucket := range c.api.ListBuckets()] of the recursive listing. *)
Fixpoint recursiveBuckets (o : string) (buckets : list BucketStatCh)
  : list ContentOnChannel :=
  match buckets with
  | [] => []
  | bucket :: rest =>
      match BErr bucket with
      | Some e => [errorEvent e]
      | None =>
          let (evs, returned) :=
            untilFirstError OErr (bucketObjectContent bucket)
              (ListObjects (BucketName (BStat bucket)) o true) in
          if returned then evs else evs ++ recursiveBuckets o rest
      end
  end.

(** The content [listRecursiveInRoutine] makes of an object under the
    bucket [b] and the prefix [o]. *)
Definition recursiveContent (hostURL : URL) (b o : string)
  (object : ObjectStatCh) : Content :=
  let sep := string_of_rune (Separator hostURL) in
  let key := Key (OStat object) in
  let normalizedKey :=
    if String.eqb o "" then
      if LastIndex (Path hostURL) sep =? 0 then
        if negb (String.eqb
                   (slice_to (URLString hostURL)
                      (LastIndex (URLString hostURL) sep + 1)) b)
        then filepathJoin b key else key
      else key
    else if HasSuffix o sep then TrimPrefix key o else key in
  mkContent normalizedKey (LastModified (OStat object))
    (ObjectSize (OStat object)) mode0664.

Definition listRecursiveInRoutine (hostURL : URL) : list ContentOnChannel :=
  let (b, o) := url2BucketAndObject hostURL in
  if String.eqb b "" && String.eqb o "" then recursiveBuckets o ListBuckets
  else
    fst (untilFirstError OErr (recursiveContent hostURL b o)
           (ListObjects b o true)).

Definition List (hostURL : URL) (recursive : bool) : list ContentOnChannel :=
  if recursive then listRecursiveInRoutine hostURL
  else listInRoutine hostURL.

End Client.

End S3.

Module S3Facts.
Import GoStrings Client S3.

(** [s] holds the byte [sep]. *)
Fixpoint hasSep (s : string) (sep : ascii) : bool :=
  match s with
  | EmptyString => false
  | String c s' => Ascii.eqb c sep || hasSep s' sep
  end.

Lemma cut_none (s : string) (sep : ascii) :
  hasSep s sep = false -> cut s sep = None.
Proof.
  induction s as [|c s IH]; simpl; [reflexivity|].
  intros H. apply orb_false_iff in H. destruct H as [Hc Hs].
  rewrite Hc, (IH Hs). reflexivity.
Qed.

Lemma cut_app (a r : string) (sep : ascii) :
  hasSep a sep = false -> cut (a ++ String sep r) sep = Some (a, r).
Proof.
  induction a as [|c a IH]; simpl.
  - intros _. rewrite Ascii.eqb_refl. reflexivity.
  - intros H. apply orb_false_iff in H. destruct H as [Hc Ha].
    rewrite Hc, (IH Ha). reflexivity.
Qed.

Lemma cut_some (s : string) (sep : ascii) a r :
  cut s sep = Some (a, r) ->
  hasSep a sep = false /\ s = (a ++ String sep r)%string.
Proof.
  revert a. induction s as [|c s IH]; simpl; intros a; [discriminate|].
  destruct (Ascii.eqb_spec c sep) as [->|Hc].
  - intros [= <- <-]. auto.
  - destruct (cut s sep) as [[a' r']|]; [|discriminate].
    intros [= <- <-]. destruct (IH a' eq_refl) as [Ha ->].
    simpl. split; [|reflexivity].
    destruct (Ascii.eqb_spec c sep); [contradiction | exact Ha].
Qed.

Section WithAPI.
Context {api : API}.

(** The path [pre/bucket/object] gives back the bucket and the object,
    whatever separators the object holds; [pre/bucket] gives the bucket
    and no object; a path without separator gives neither.  [pre], the
    text before the first separator, is dropped. *)
Theorem url2BucketAndObject_of_path (scheme host : string) (sep : ascii)
  (pre bucket object : string) :
  hasSep pre sep = false -> hasSep bucket sep = false ->
  url2BucketAndObject
    (mkURL scheme host (pre ++ String sep (bucket ++ String sep object)) sep)
  = (bucket, object)
  /\ url2BucketAndObject (mkURL scheme host (pre ++ String sep bucket) sep)
     = (bucket, "")
  /\ url2BucketAndObject (mkURL scheme host pre sep) = ("", "").
Proof.
  intros Hp Hb. unfold url2BucketAndObject. simpl.
  rewrite !(cut_app pre _ sep Hp), (cut_app bucket object sep Hb).
  rewrite (cut_none bucket sep Hb), (cut_none pre sep Hp).
  repeat split.
Qed.

(** Conversely the bucket never holds the separator, and the path is the
    dropped text, the bucket and the object put together again. *)
Theorem url2BucketAndObject_parts (hostURL : URL) (bucket object : string) :
  url2BucketAndObject hostURL = (bucket, object) ->
  hasSep bucket (Separator hostURL) = false
  /\ exists pre,
       hasSep pre (Separator hostURL) = false
       /\ (Path hostURL = pre /\ bucket = "" /\ object = ""
           \/ Path hostURL = (pre ++ String (Separator hostURL) bucket)%string
              /\ object = ""
           \/ Path hostURL
              = (pre ++ String (Separator hostURL)
                          (bucket ++ String (Separator hostURL) object))%string).
Proof.
  unfold url2BucketAndObject. simpl.
  destruct (cut (Path hostURL) (Separator hostURL)) as [[pre r]|] eqn:E1.
  - destruct (cut_some _ _ _ _ E1) as [Hp Ep].
    destruct (cut r (Separator hostURL)) as [[b o]|] eqn:E2; simpl.
    + destruct (cut_some _ _ _ _ E2) as [Hb Er].
      intros [= <- <-]. split; [exact Hb|]. exists pre. split; [exact Hp|].
      right. right. rewrite Ep, Er. reflexivity.
    + intros [= <- <-]. split.
      * clear E1 Ep. revert E2. induction r as [|c r IH]; simpl; [reflexivity|].
        destruct (Ascii.eqb c (Separator hostURL)); [discriminate|].
        destruct (cut r (Separator hostURL)) as [[? ?]|]; [discriminate|].
        intros _. apply IH. reflexivity.
      * exists pre. split; [exact Hp|]. right. left. auto.
  - simpl. intros [= <- <-]. split; [reflexivity|].
    exists (Path hostURL). split; [|left; auto].
    revert E1. induction (Path hostURL) as [|c r IH]; simpl; [reflexivity|].
    destruct (Ascii.eqb c (Separator hostURL)); [discriminate|].
    destruct (cut r (Separator hostURL)) as [[? ?]|]; [discriminate|].
    intros _. apply IH. reflexivity.
Qed.

(** The values of an API channel before its first error, and that
    error. *)
Fixpoint beforeError {X : Type} (err : X -> option error) (xs : list X)
  : list X :=
  match xs with
  | [] => []
  | x :: rest => match err x with
                 | Some _ => []
                 | None => x :: beforeError err rest
                 end
  end.

Fixpoint firstError {X : Type} (err : X -> option error) (xs : list X)
  : option error :=
  match xs with
  | [] => None
  | x :: rest => match err x with
                 | Some e => Some e
                 | None => firstError err rest
                 end
  end.

Definition errorTail (e : option error) : list ContentOnChannel :=
  match e with Some err => [errorEvent err] | None => [] end.

Lemma untilFirstError_spec {X : Type} (err : X -> option error)
  (content : X -> Content) (xs : list X) :
  untilFirstError err content xs
  = (map (fun x => contentEvent (content x)) (beforeError err xs)
     ++ errorTail (firstError err xs),
     match firstError err xs with Some _ => true | None => false end).
Proof.
  induction xs as [|x rest IH]; simpl; [reflexivity|].
  destruct (err x) as [e|]; [reflexivity|].
  rewrite IH. reflexivity.
Qed.

(** Contents only, then at most one error, which is the last event. *)
Definition stopsAtError (evs : list ContentOnChannel) : Prop :=
  exists cs e, evs = map contentEvent cs ++ errorTail e.

Lemma untilFirstError_stops {X : Type} (err : X -> option error)
  (content : X -> Content) (xs : list X) :
  stopsAtError (fst (untilFirstError err content xs)).
Proof.
  rewrite untilFirstError_spec. simpl.
  exists (map content (beforeError err xs)), (firstError err xs).
  rewrite map_map. reflexivity.
Qed.

Lemma recursiveBuckets_stops (o : string) (buckets : list BucketStatCh) :
  stopsAtError (recursiveBuckets o buckets).
Proof.
  induction buckets as [|bucket rest IH]; simpl.
  - exists [], None. reflexivity.
  - destruct (BErr bucket) as [e|].
    + exists [], (Some e). reflexivity.
    + rewrite untilFirstError_spec.
      destruct (firstError OErr _) as [e|] eqn:Ef.
      * eexists (map _ _), (Some e). rewrite map_map. reflexivity.
      * destruct IH as (cs & e & ->). simpl. rewrite app_nil_r.
        eexists (map _ _ ++ cs), e.
        rewrite map_app, map_map, app_assoc. reflexivity.
Qed.

(** The shape of every listing. *)
Lemma List_stops (hostURL : URL) (recursive : bool) :
  stopsAtError (List hostURL recursive).
Proof.
  unfold List, listRecursiveInRoutine, listInRoutine.
  destruct (url2BucketAndObject hostURL) as [b o].
  destruct recursive.
  - destruct (_ && _); [apply recursiveBuckets_stops|].
    apply untilFirstError_stops.
  - destruct (_ && _); [apply untilFirstError_stops|].
    destruct (StatObject b o) as [metadata|err].
    + exists [statContent metadata], None. reflexivity.
    + apply untilFirstError_stops.
Qed.


Lemma in_stops_content {X : Type} (err : X -> option error)
  (content : X -> Content) (xs : list X) ev c :
  In ev (fst (untilFirstError err content xs)) -> EvContent ev = Some c ->
  exists x, In x xs /\ err x = None /\ c = content x.
Proof.
  induction xs as [|x rest IH]; simpl; [intros []|].
  destruct (err x) as [e|] eqn:Ee.
  - intros [<- | []]. discriminate.
  - destruct (untilFirstError err content rest) as [evs r]. simpl in *.
    intros [<- | Hin] Hc.
    + injection Hc as <-. exists x. auto.
    + destruct (IH Hin Hc) as (x' & Hx & He & ->). exists x'. auto.
Qed.

Lemma in_recursiveBuckets (o : string) (buckets : list BucketStatCh) ev c :
  In ev (recursiveBuckets o buckets) -> EvContent ev = Some c ->
  exists bucket object,
    In bucket buckets
    /\ In object (ListObjects (BucketName (BStat bucket)) o true)
    /\ c = bucketObjectContent bucket object.
Proof.
  induction buckets as [|bucket rest IH]; simpl; [intros []|].
  destruct (BErr bucket) as [e|].
  - intros [<- | []]. discriminate.
  - destruct (untilFirstError OErr (bucketObjectContent bucket) _)
      as [evs r] eqn:E.
    assert (Hhere : In ev evs -> EvContent ev = Some c ->
              exists object,
                In object (ListObjects (BucketName (BStat bucket)) o true)
                /\ c = bucketObjectContent bucket object).
    { intros Hin Hc.
      destruct (in_stops_content OErr (bucketObjectContent bucket)
                  (ListObjects (BucketName (BStat bucket)) o true) ev c)
        as (x & Hx & _ & ->); [rewrite E; exact Hin | exact Hc |].
      exists x. auto. }
    intros Hin Hc.
    assert (Hor : In ev evs \/ In ev (recursiveBuckets o rest)).
    { destruct r; [left; exact Hin | apply in_app_or; exact Hin]. }
    destruct Hor as [H1 | H2].
    + destruct (Hhere H1 Hc) as (object & Ho & ->).
      exists bucket, object. auto.
    + destruct (IH H2 Hc) as (b' & o' & Hb & Ho & ->).
      exists b', o'. auto.
Qed.

(** A recursive listing delivers regular files only: each content has
    the mode 0664, which is a regular file and not a directory, and the
    size and the time of one object the API listed. *)
Theorem List_recursive_regular_files (hostURL : URL) ev c :
  In ev (List hostURL true) -> EvContent ev = Some c ->
  Type_ c = mode0664
  /\ FileMode.IsRegular (Type_ c) = true
  /\ FileMode.IsDir (Type_ c) = false
  /\ exists bucket prefix object,
       In object (ListObjects bucket prefix true)
       /\ Size c = ObjectSize (OStat object)
       /\ Time c = LastModified (OStat object).
Proof.
  unfold List, listRecursiveInRoutine.
  destruct (url2BucketAndObject hostURL) as [b o].
  destruct (_ && _); intros Hin Hc.
  - destruct (in_recursiveBuckets o ListBuckets ev c Hin Hc)
      as (bucket & object & _ & Ho & ->).
    repeat split. exists (BucketName (BStat bucket)), o, object. auto.
  - destruct (in_stops_content _ _ _ _ _ Hin Hc) as (object & Ho & _ & ->).
    repeat split. exists b, o, object. auto.
Qed.

(** The recursive listing of a bucket or of a prefix keeps the order and
    the number of the objects the API lists before its first error: one
    content per object, then the error if there is one. *)
Theorem List_recursive_in_order (hostURL : URL) (b o : string) :
  url2BucketAndObject hostURL = (b, o) ->
  (String.eqb b "" && String.eqb o "") = false ->
  List hostURL true
  = map (fun object => contentEvent (recursiveContent hostURL b o object))
      (beforeError OErr (ListObjects b o true))
    ++ errorTail (firstError OErr (ListObjects b o true)).
Proof.
  intros Hu Hb. unfold List, listRecursiveInRoutine. rewrite Hu, Hb.
  rewrite untilFirstError_spec. reflexivity.
Qed.

(** In a listing that is not recursive, a directory always has size 0:
    buckets, and keys that end with the separator. *)
Theorem List_directories_have_no_size (hostURL : URL) ev c :
  In ev (List hostURL false) -> EvContent ev = Some c ->
  FileMode.IsDir (Type_ c) = true -> Size c = 0.
Proof.
  unfold List, listInRoutine.
  destruct (url2BucketAndObject hostURL) as [b o].
  destruct (_ && _); intros Hin Hc Hd.
  - destruct (in_stops_content _ _ _ _ _ Hin Hc) as (x & _ & _ & ->).
    reflexivity.
  - destruct (StatObject b o) as [metadata|err].
    + destruct Hin as [<- | []]. injection Hc as <-. discriminate Hd.
    + destruct (in_stops_content _ _ _ _ _ Hin Hc) as (x & _ & _ & ->).
      unfold listedContent in *.
      destruct (HasSuffix _ _); [reflexivity | discriminate Hd].
Qed.

End WithAPI.

End S3Facts.

(** ** The S3 client: [Stat] *)

Module S3Stat.
Import GoStrings Client S3.

(** The rest of the API [Stat] calls: [BucketExists], and the code of
    the error response [minio.ToErrorResponse] reads off an error (none
    when the response is nil). *)
Class StatAPI := {
  BucketExists : string -> option error;
  errorCode : error -> option string
}.

(** What [Stat] returns, or the nil dereference of [content.Content]. *)
Inductive statResult :=
| Found (c : Content)
| NotFound (e : error)
| NilDereference.

Section Client.
Context {api : API} {statAPI : StatAPI}.

(** The loop over [c.List(false)] for a key that does not exist: it
    returns at the first event. *)
Definition statAsFolder (hostURL : URL) (object : string) (err : error)
  : statResult :=
  match List hostURL false with
  | [] => NotFound err
  | content :: _ =>
      match EvErr content with
      | Some _ => NotFound err
      | None =>
          match EvContent content with
          | None => NilDereference
          | Some c => Found (mkContent object (Time c) 0 FileMode.ModeDir)
          end
      end
  end.

Definition Stat (hostURL : URL) : statResult :=
  let (bucket, object) := url2BucketAndObject hostURL in
  match (if String.eqb bucket "" && String.eqb object "" then
           match ListBuckets with
           | [] => None
           | b :: _ =>
               Some (match BErr b with
                     | Some e => NotFound e
                     | None => Found (mkContent "" 0 0 FileMode.ModeDir)
                     end)
           end
         else None) with
  | Some r => r
  | None =>
      if negb (String.eqb object "") then
        match StatObject bucket object with
        | Failed err =>
            match errorCode err with
            | Some code =>
                if String.eqb code "NoSuchKey"
                then statAsFolder hostURL object err
                else NotFound err
            | None => NotFound err
            end
        | Ok metadata => Found (statContent metadata)
        end
      else
        match BucketExists bucket with
        | Some e => NotFound e
        | None => Found (mkContent bucket 0 0 FileMode.ModeDir)
        end
  end.

End Client.

End S3Stat.

Module S3StatFacts.
Import GoStrings Client S3 S3Facts S3Stat.

Section WithAPI.
Context {api : API} {statAPI : StatAPI}.

Lemma statAsFolder_safe (hostURL : URL) (object : string) (err : error) :
  statAsFolder hostURL object err = NotFound err
  \/ exists t, statAsFolder hostURL object err
               = Found (mkContent object t 0 FileMode.ModeDir).
Proof.
  unfold statAsFolder.
  destruct (List_stops hostURL false) as (cs & e & ->).
  destruct cs as [|c cs]; simpl.
  - destruct e; simpl; auto.
  - right. eexists. reflexivity.
Qed.

(** [Stat] never dereferences a nil content; what it finds is either a
    folder of size 0 or a file of mode 0664. *)
Theorem Stat_folder_or_file (hostURL : URL) :
  Stat hostURL <> NilDereference
  /\ forall c, Stat hostURL = Found c ->
       (Type_ c = FileMode.ModeDir /\ Size c = 0) \/ Type_ c = mode0664.
Proof.
  unfold Stat. destruct (url2BucketAndObject hostURL) as [bucket object].
  assert (Hrest :
    (if negb (String.eqb object "") then
       match StatObject bucket object with
       | Failed err =>
           match errorCode err with
           | Some code =>
               if String.eqb code "NoSuchKey"
               then statAsFolder hostURL object err
               else NotFound err
           | None => NotFound err
           end
       | Ok metadata => Found (statContent metadata)
       end
     else
       match BucketExists bucket with
       | Some e => NotFound e
       | None => Found (mkContent bucket 0 0 FileMode.ModeDir)
       end) <> NilDereference
    /\ forall c,
         (if negb (String.eqb object "") then
            match StatObject bucket object with
            | Failed err =>
                match errorCode err with
                | Some code =>
                    if String.eqb code "NoSuchKey"
                    then statAsFolder hostURL object err
                    else NotFound err
                | None => NotFound err
                end
            | Ok metadata => Found (statContent metadata)
            end
          else
            match BucketExists bucket with
            | Some e => NotFound e
            | None => Found (mkContent bucket 0 0 FileMode.ModeDir)
            end) = Found c ->
         (Type_ c = FileMode.ModeDir /\ Size c = 0) \/ Type_ c = mode0664).
  { destruct (negb (String.eqb object "")).
    - destruct (StatObject bucket object) as [metadata|err].
      + split; [discriminate|]. intros c [= <-]. right. reflexivity.
      + destruct (errorCode err) as [code|];
          [| split; [discriminate | intros c; discriminate]].
        destruct (String.eqb code "NoSuchKey");
          [| split; [discriminate | intros c; discriminate]].
        destruct (statAsFolder_safe hostURL object err) as [-> | [t ->]].
        * split; [discriminate | intros c; discriminate].
        * split; [discriminate|]. intros c [= <-]. left. auto.
    - destruct (BucketExists bucket).
      + split; [discriminate | intros c; discriminate].
      + split; [discriminate|]. intros c [= <-]. left. auto. }
  destruct (String.eqb bucket "" && String.eqb object ""); [|exact Hrest].
  destruct ListBuckets as [|b bs]; [exact Hrest|].
  destruct (BErr b).
  - split; [discriminate | intros c; discriminate].
  - split; [discriminate|]. intros c [= <-]. left. auto.
Qed.

(** A key that does not exist ("NoSuchKey") is found as a folder of size
    0, named by the key, exactly when the listing of the key starts with
    an object; when that listing is empty or starts with an error, [Stat]
    fails with the error of the key, not with the error of the listing. *)
Theorem Stat_missing_key (hostURL : URL) (bucket object : string) (err : error) :
  url2BucketAndObject hostURL = (bucket, object) ->
  object <> "" ->
  StatObject bucket object = Failed err ->
  errorCode err = Some "NoSuchKey" ->
  match ListObjects bucket object false with
  | [] => Stat hostURL = NotFound err
  | first :: _ =>
      match OErr first with
      | Some _ => Stat hostURL = NotFound err
      | None =>
          Stat hostURL
          = Found (mkContent object
                     (Time (listedContent hostURL object first)) 0
                     FileMode.ModeDir)
      end
  end.
Proof.
  intros Hu Ho Hs Hc. unfold Stat. rewrite Hu.
  assert (Hb : String.eqb bucket "" && String.eqb object "" = false).
  { apply andb_false_iff. right. apply String.eqb_neq. exact Ho. }
  rewrite Hb. apply String.eqb_neq in Ho. rewrite Ho. simpl.
  rewrite Hs, Hc. simpl.
  unfold statAsFolder, List, listInRoutine. rewrite Hu, Hb, Hs.
  destruct (ListObjects bucket object false) as [|first rest]; simpl;
    [reflexivity|].
  destruct (OErr first) as [e|]; simpl; [reflexivity|].
  destruct (untilFirstError OErr (listedContent hostURL object) rest).
  reflexivity.
Qed.

End WithAPI.

End S3StatFacts.

(** ** [cat-main.go]: [doCatCmd] *)

Module Cat.
Import Client.

(** What the type switch on the error of [io.Copy] looks at: whether it
    is an [*os.PathError], and whether its cause is [syscall.EPIPE]. *)
Record copyFailure := mkCopyFailure {
  cause : error;
  isPathError : bool;
  isEPIPE : bool
}.

(** The calls of [doCatCmd] whose code lies outside [cat-main.go]. *)
Class Streams := {
  client : Type;
  reader : Type;
  source2Client : string -> result client;
  GetObject : client -> Z -> Z -> result reader;
  copyToStdout : reader -> option copyFailure
}.

Section Command.
Context {S : Streams}.

Definition doCatCmd (sourceURL : string) : string * option error :=
  match source2Client sourceURL with
  | Failed err => ("Unable to create client: " ++ sourceURL, Some err)%string
  | Ok sourceClnt =>
      match GetObject sourceClnt 0 0 with
      | Failed err => ("Unable to retrieve file: " ++ sourceURL, Some err)%string
      | Ok rd =>
          match copyToStdout rd with
          | Some failure =>
              if isPathError failure then
                if isEPIPE failure then ("", None)
                else ("Writing data to stdout failed, unexpected problem.. please report this error",
                      Some (cause failure))
              else
                ("Reading data from source failed: " ++ sourceURL,
                 Some (cause failure))%string
          | None => ("", None)
          end
      end
  end.

(** The message [doCatCmd] returns is empty exactly when it returns no
    error; a closed standard output (EPIPE) is no error. *)
Theorem doCatCmd_message_iff_error (sourceURL : string) :
  (fst (doCatCmd sourceURL) = "" <-> snd (doCatCmd sourceURL) = None)
  /\ (forall clnt rd failure,
        source2Client sourceURL = Ok clnt ->
        GetObject clnt 0 0 = Ok rd ->
        copyToStdout rd = Some failure ->
        isPathError failure = true -> isEPIPE failure = true ->
        doCatCmd sourceURL = ("", None)).
Proof.
  split.
  - unfold doCatCmd.
    destruct (source2Client sourceURL) as [clnt|err]; simpl;
      [| split; discriminate].
    destruct (GetObject clnt 0 0) as [rd|err]; simpl;
      [| split; discriminate].
    destruct (copyToStdout rd) as [failure|]; simpl; [|split; reflexivity].
    destruct (isPathError failure); simpl; [|split; discriminate].
    destruct (isEPIPE failure); simpl; split; try reflexivity; discriminate.
  - intros clnt rd failure Hc Hg Hf Hp He. unfold doCatCmd.
    rewrite Hc, Hg, Hf, Hp, He. reflexivity.
Qed.

End Command.

End Cat.

(** ** More sample backends and runs *)

Module MoreRuns.
Import GoStrings Client Sample SampleMirror StringOrder.
Import OracleFacts EngineFacts CpFacts CpPlans.

(** A file system with the symbolic link [link] and the directory
    [broken], whose listing delivers an event without entry and without
    error between two files. *)
Definition brokenListing : list ContentOnChannel :=
  [ entry (regularFile "broken/a.txt" 5);
    zeroEvent;
    entry (regularFile "broken/b.txt" 3) ].

Definition statOfLinks (u : string) : result (Cp.ClientHandle * Content) :=
  if String.eqb u "link" then
    Ok (Cp.mkClient (fun _ => []), symlink "link" 0)
  else if String.eqb u "broken" then
    Ok (Cp.mkClient (fun _ => brokenListing), directory "broken")
  else if String.eqb u "broken/a.txt" then
    Ok (Cp.mkClient (fun _ => []), regularFile "broken/a.txt" 5)
  else Failed (errBackend "no such file").

#[local] Instance linkBackend : Cp.Backend := {|
  Cp.isURLRecursive := fun u => HasSuffix u "...";
  Cp.stripRecursiveURL := fun u =>
    if HasSuffix u "..."
    then String.substring 0 (String.length u - 3) u else u;
  Cp.isTargetURLDir := fun u => String.eqb u "out" || String.eqb u "out/";
  Cp.url2Stat := statOfLinks;
  Cp.Parse := fun u => Ok (mkURL "" "" u "/"%char);
  Cp.URLString := Path;
  Cp.filepathJoin := joinSlash
|}.

(** Every argument is its own URL. *)
#[local] Instance plainArguments : CpSyntax.Arguments := {|
  CpSyntax.args2URLs := fun args => Ok args
|}.

(** The source root [e/] delivers an error between its two files. *)
Definition clientWithError (u : string) : result Mirror.ClientHandle :=
  let serve l := Ok (Mirror.mkClient (fun _ _ => l)) in
  if String.eqb u "e/" then
    serve [ entry (regularFile "e/a.txt" 5);
            failure "connection reset";
            entry (regularFile "e/b.txt" 3) ]
  else if String.eqb u "empty/" then serve []
  else Failed (errBackend "no such bucket").

#[local] Instance errorBackend : Mirror.Backend := {|
  Mirror.url2Client := clientWithError;
  Mirror.urlJoinPath := joinSlash;
  Mirror.NewURL := fun u => mkURL "" "" u "/"%char;
  Mirror.URLString := Path
|}.

(** An S3 store with the bucket [b1]: under the prefix [dir/] the objects
    [dir/a] (5 bytes) and [dir/sub/b] (3 bytes); the key [dir] itself does
    not exist. *)
Definition object (key : string) (size : Z) : S3.ObjectStatCh :=
  S3.mkObjectStatCh (S3.mkObjectStat key 100 size) None.

Definition objectsOf (bucket prefix : string) (recursive : bool)
  : list S3.ObjectStatCh :=
  if String.eqb bucket "b1" then
    if recursive then [object "dir/a" 5; object "dir/sub/b" 3]
    else if String.eqb prefix "dir" then [object "dir/" 0]
    else [object "dir/a" 5; object "dir/sub/" 0]
  else [].

#[local] Instance sampleAPI : S3.API := {|
  S3.ListBuckets := [S3.mkBucketStatCh (S3.mkBucketStat "b1" 50) None];
  S3.ListObjects := objectsOf;
  S3.StatObject := fun _ _ => Failed (errBackend "NoSuchKey");
  S3.timeNow := 200;
  S3.filepathJoin := joinSlash;
  S3.URLString := fun u => (Scheme u ++ "://" ++ Host u ++ Path u)%string
|}.

#[local] Instance sampleStatAPI : S3Stat.StatAPI := {|
  S3Stat.BucketExists := fun b =>
    if String.eqb b "b1" then None else Some (errBackend "NoSuchBucket");
  S3Stat.errorCode := fun e =>
    match e with errBackend code => Some code | _ => None end
|}.

Definition s3URL (path : string) : URL := mkURL "https" "play" path "/"%char.

(** [dir...] has two files, one listing error and one directory. *)
Lemma prepareCopyURLsTypeC_count_witness :
  snd (Cp.prepareCopyURLsTypeC (B := cpBackend) "dir..." "out/") = Closed
  /\ List.length (fst (Cp.prepareCopyURLsTypeC (B := cpBackend) "dir..." "out/"))
     = 3%nat.
Proof.
  refine (prepareCopyURLsTypeC_count (B := cpBackend) "dir..." "out/"
            (Cp.mkClient (fun _ => dirListing)) (directory "dir")
            eq_refl eq_refl eq_refl _).
  constructor; [right; discriminate|].
  constructor; [left; discriminate|].
  constructor; [right; discriminate|].
  constructor; [right; discriminate | constructor].
Defined.

(** The plan of [broken...] keeps [a.txt] and never reaches [b.txt]. *)
Lemma prepareCopyURLsTypeC_nil_event_witness :
  Cp.prepareCopyURLsTypeC (B := linkBackend) "broken..." "out/"
  = (fst (Cp.typeC_loop (B := linkBackend) "broken" "out/"
            [entry (regularFile "broken/a.txt" 5)]),
     Panicked).
Proof.
  refine (prepareCopyURLsTypeC_nil_event (B := linkBackend) "broken..." "out/"
            (Cp.mkClient (fun _ => brokenListing)) (directory "broken")
            [entry (regularFile "broken/a.txt" 5)]
            [entry (regularFile "broken/b.txt" 3)]
            eq_refl eq_refl eq_refl eq_refl _).
  constructor; [right; discriminate | constructor].
Defined.

(** [mc cp link... out]: the check passes, the plan is one error. *)
Lemma checkCopySyntax_passes_what_typeC_rejects_witness :
  CpSyntax.checkCopySyntax (B := linkBackend) ["link..."; "out"]
  = CpSyntax.Proceeds
  /\ Cp.prepareCopyURLs (B := linkBackend) (Slice ["link..."]) "out"
     = ([Cp.errorURLs (errSourceIsNotDir "link")], Closed).
Proof.
  refine (CpSyntaxFacts.checkCopySyntax_passes_what_typeC_rejects
            (B := linkBackend) ["link..."; "out"] "link..." "out"
            (Cp.mkClient (fun _ => [])) (symlink "link" 0)
            _ _ eq_refl eq_refl eq_refl _ eq_refl eq_refl eq_refl).
  - simpl. lia.
  - discriminate.
  - vm_compute. discriminate.
Defined.

(** After the query about [sub/b.txt], the query about [a.txt] is
    answered "not available" although [full/] lists it with that size. *)
Lemma isAvailable_never_rewinds_witness :
  let o := Mirror.mkOracle "full/" fullListing "full/" false false zeroEvent in
  let o' := snd (Mirror.isAvailable false o "sub/b.txt" 0 3) in
  Mirror.isAvailable false o' "a.txt" 0 5 = (Mirror.Returns (false, None), o').
Proof.
  exact (MirrorRuns.isAvailable_never_rewinds (B := mirrorBackend) false false
           (Mirror.mkOracle "full/" fullListing "full/" false false zeroEvent)
           _ "sub/b.txt" "a.txt" 0 3 0 5 true eq_refl eq_refl).
Defined.

(** The closure of an empty target answers every query alike. *)
Lemma isAvailable_sticky_end_witness :
  Mirror.askAll false
    (Mirror.mkOracle "empty/" [] "empty/" false false zeroEvent)
    [("a.txt", 0, 5); ("sub/b.txt", 0, 3)]
  = [Mirror.Returns (false, None); Mirror.Returns (false, None)].
Proof.
  exact (MirrorRuns.isAvailable_sticky_end (B := mirrorBackend) false
           (Mirror.mkOracle "empty/" [] "empty/" false false zeroEvent)
           "a.txt" 0 5 [("sub/b.txt", 0, 3)] eq_refl eq_refl eq_refl).
Defined.

(** The error between the two files of [e/] is in the output. *)
Lemma deltaSourceTargets_forwards_errors_witness :
  In (Mirror.errorURLs (errBackend "connection reset"))
     (fst (Mirror.deltaSourceTargets (B := errorBackend) false "e/" ["empty"])).
Proof.
  refine (MirrorRuns.deltaSourceTargets_forwards_errors (B := errorBackend)
            false "e/" ["empty"]
            (Mirror.mkClient (fun _ _ =>
               [ entry (regularFile "e/a.txt" 5);
                 failure "connection reset";
                 entry (regularFile "e/b.txt" 3) ]))
            (failure "connection reset") (errBackend "connection reset")
            _ eq_refl eq_refl (or_intror (or_introl eq_refl)) eq_refl).
  intros t [<- | []]. eexists. reflexivity.
Defined.

(** One target, one reference. *)
Lemma deltaSourceTargets_targets_bound_witness :
  (List.length
     [Mirror.targetContentOf (mkURL "" "" "empty/a.txt" "/"%char)] <= 1)%nat.
Proof.
  exact (MirrorRuns.deltaSourceTargets_targets_bound (B := mirrorBackend)
           false "s/" ["empty"]
           (Mirror.mkMirrorURLs (Some (regularFile "s/a.txt" 5))
              [Mirror.targetContentOf (mkURL "" "" "empty/a.txt" "/"%char)]
              None)
           (or_introl eq_refl)).
Defined.

(** [/b1/dir/sub/b] is the object [dir/sub/b] of the bucket [b1]. *)
Lemma url2BucketAndObject_of_path_witness :
  S3.url2BucketAndObject (s3URL "/b1/dir/sub/b") = ("b1", "dir/sub/b")
  /\ S3.url2BucketAndObject (s3URL "/b1") = ("b1", "")
  /\ S3.url2BucketAndObject (s3URL "") = ("", "").
Proof.
  exact (S3Facts.url2BucketAndObject_of_path "https" "play" "/"%char
           "" "b1" "dir/sub/b" eq_refl eq_refl).
Defined.

Lemma url2BucketAndObject_parts_witness :
  S3Facts.hasSep "b1" "/"%char = false
  /\ exists pre,
       S3Facts.hasSep pre "/"%char = false
       /\ ("/b1/dir/a" = pre /\ "b1" = "" /\ "dir/a" = ""
           \/ "/b1/dir/a" = (pre ++ String "/"%char "b1")%string /\ "dir/a" = ""
           \/ "/b1/dir/a"
              = (pre ++ String "/"%char ("b1" ++ String "/"%char "dir/a"))%string).
Proof.
  exact (S3Facts.url2BucketAndObject_parts (s3URL "/b1/dir/a") "b1" "dir/a"
           eq_refl).
Defined.

(** The recursive listing of [/b1/dir/]. *)
Lemma List_recursive_regular_files_witness :
  S3.mode0664 = S3.mode0664
  /\ FileMode.IsRegular S3.mode0664 = true
  /\ FileMode.IsDir S3.mode0664 = false
  /\ exists bucket prefix object,
       In object (S3.ListObjects bucket prefix true)
       /\ 5 = S3.ObjectSize (S3.OStat object)
       /\ 100 = S3.LastModified (S3.OStat object).
Proof.
  exact (S3Facts.List_recursive_regular_files (api := sampleAPI)
           (s3URL "/b1/dir/")
           (S3.contentEvent (S3.mkContent "a" 100 5 S3.mode0664))
           (S3.mkContent "a" 100 5 S3.mode0664)
           (or_introl eq_refl) eq_refl).
Defined.

Lemma List_recursive_in_order_witness :
  S3.List (api := sampleAPI) (s3URL "/b1/dir/") true
  = [ S3.contentEvent (S3.mkContent "a" 100 5 S3.mode0664);
      S3.contentEvent (S3.mkContent "sub/b" 100 3 S3.mode0664) ].
Proof.
  exact (S3Facts.List_recursive_in_order (api := sampleAPI)
           (s3URL "/b1/dir/") "b1" "dir/" eq_refl eq_refl).
Defined.

(** In the listing of [/b1/dir/] the key [dir/sub/] is a folder. *)
Lemma List_directories_have_no_size_witness :
  S3.Size (S3.mkContent "sub/" 200 0 FileMode.ModeDir) = 0.
Proof.
  exact (S3Facts.List_directories_have_no_size (api := sampleAPI)
           (s3URL "/b1/dir/")
           (S3.contentEvent (S3.mkContent "sub/" 200 0 FileMode.ModeDir))
           (S3.mkContent "sub/" 200 0 FileMode.ModeDir)
           (or_intror (or_introl eq_refl)) eq_refl eq_refl).
Defined.

(** [/b1/dir] does not exist as a key, but lists [dir/]: it is a
    folder. *)
Lemma Stat_missing_key_witness :
  S3Stat.Stat (api := sampleAPI) (statAPI := sampleStatAPI) (s3URL "/b1/dir")
  = S3Stat.Found (S3.mkContent "dir" 200 0 FileMode.ModeDir).
Proof.
  exact (S3StatFacts.Stat_missing_key (api := sampleAPI)
           (statAPI := sampleStatAPI) (s3URL "/b1/dir") "b1" "dir"
           (errBackend "NoSuchKey") eq_refl ltac:(discriminate)
           eq_refl eq_refl).
Defined.

End MoreRuns.
